(** * Quotation system: tier resolver, quote calculator and quote history

    A shallow embedding of the price computation of the quotation page:
    [utils.calculatePriceByTier] (the stand-alone tier resolver of utils.js)
    and [appModule] of assets/js/app.js (the state of the page, its input
    handlers, [calculatePrice] and the history operations).

    Numbers.  A JavaScript number is modelled by its mathematical value:
    quantities and tier bounds are integers ([Z]), money amounts and the
    exchange rate are rationals ([Q]) and arithmetic is exact.  [NaN] only
    arises as the result of [parseInt]/[parseFloat] and is the [None] of an
    [option]; a division by zero, whose JavaScript result is not a finite
    number, is the [None] of [Js.divide].  Binary rounding, infinities and
    the sign of zero are outside the model: an integer of magnitude 2^53 at
    most is a number as it stands, a larger one read by [parseInt] is kept
    as read where JavaScript rounds it to a neighbouring number, and an
    amount is printed as JavaScript prints it below 10^21 in magnitude.
    Only [Format], the model of [formatPrice], has [NaN] and the infinities
    among the numbers it prints.

    Strings.  A string is a sequence of code units below 256, so that the
    yen sign and the multiplication sign of the history entries are single
    characters.

    Further parts.  The options of the three select boxes ([Options]), the
    other pure functions of utils.js ([Tools], [Format]), its validators
    with the regular expressions they test ([Regex], [Validate]), and the
    history in the local storage ([Json], [LocalStorage], [Store], [Page]),
    where [JSON.stringify] is modelled for histories and [JSON.parse] for
    the texts it writes. *)

From Stdlib Require Import ZArith QArith Qround Qabs Lqa List String Ascii Bool Lia.
From Stdlib Require Import DecimalString DecimalPos Permutation.
Import ListNotations.

Local Open Scope Z_scope.

(** ** The JavaScript built-ins the code relies on *)

Module Js.

(** Truthiness of a (finite) number: every number but zero. *)
Definition truthy (q : Q) : bool := negb (Qeq_bool q 0).

(** [p || d] where [p] is the integer-or-NaN result of [parseInt]. *)
Definition intOr (p : option Z) (d : Z) : Z :=
  match p with
  | Some z => if z =? 0 then d else z
  | None => d
  end.

(** [p || d] where [p] is the number-or-NaN result of [parseFloat]. *)
Definition numOr (p : option Q) (d : Q) : Q :=
  match p with
  | Some q => if truthy q then q else d
  | None => d
  end.

(** [a / b]; [None] when [b] is zero, where JavaScript yields [Infinity],
    [-Infinity] or [NaN]. *)
Definition divide (a b : Q) : option Q :=
  if Qeq_bool b 0 then None else Some (a / b)%Q.

(** White space skipped by [parseInt]: TAB, LF, VT, FF, CR, SP, NBSP. *)
Definition isWhiteSpace (c : ascii) : bool :=
  let n := N_of_ascii c in
  (N.eqb n 9 || N.eqb n 10 || N.eqb n 11 || N.eqb n 12 || N.eqb n 13
   || N.eqb n 32 || N.eqb n 160)%bool.

Fixpoint trimStart (s : string) : string :=
  match s with
  | String c r => if isWhiteSpace c then trimStart r else s
  | EmptyString => s
  end.

(** Value of a character as a digit (0-9, a-z, A-Z), if it is one. *)
Definition digitValue (c : ascii) : option Z :=
  let n := Z.of_N (N_of_ascii c) in
  if (48 <=? n) && (n <=? 57) then Some (n - 48)
  else if (97 <=? n) && (n <=? 122) then Some (n - 87)
  else if (65 <=? n) && (n <=? 90) then Some (n - 55)
  else None.

(** The longest prefix of radix-[radix] digits, read as an integer;
    [acc] is [None] until a first digit has been read. *)
Fixpoint readDigits (radix : Z) (s : string) (acc : option Z) : option Z :=
  match s with
  | String c r =>
      match digitValue c with
      | Some d =>
          if d <? radix
          then readDigits radix r
                 (Some (radix * match acc with Some a => a | None => 0 end + d))
          else acc
      | None => acc
      end
  | EmptyString => acc
  end.

(** [parseInt(s)] of a string, without a radix argument: leading white
    space, an optional sign, an optional [0x]/[0X] prefix selecting radix
    16, then digits; [None] is [NaN].  The result is the integer that the
    digits denote, which is what [parseInt] returns up to 2^53 in
    magnitude. *)
Definition parseIntString (s : string) : option Z :=
  let s1 := trimStart s in
  let '(sign, s2) :=
    match s1 with
    | String "-" r => (-1, r)
    | String "+" r => (1, r)
    | _ => (1, s1)
    end in
  let '(radix, s3) :=
    match s2 with
    | String "0" (String "x" r) => (16, r)
    | String "0" (String "X" r) => (16, r)
    | _ => (10, s2)
    end in
  option_map (Z.mul sign) (readDigits radix s3 None).

(** Decimal numeral of a non-negative integer. *)
Definition decimal (z : Z) : string := NilZero.string_of_int (Z.to_int z).

Fixpoint dropZeros (l : list ascii) : list ascii :=
  match l with
  | "0"%char :: r => dropZeros r
  | _ => l
  end.

(** [ToString] of an integer-valued number: the decimal numeral below
    10^21 in magnitude, exponent notation from there on.  The digits are
    those of the integer, which are the ones JavaScript prints up to 2^53
    in magnitude. *)
Definition numberToString (z : Z) : string :=
  let a := Z.abs z in
  let sign := if z <? 0 then "-"%string else ""%string in
  if a <? 10 ^ 21 then (sign ++ decimal a)%string
  else
    let ds := list_ascii_of_string (decimal a) in
    let n := Z.of_nat (List.length ds) in
    match rev (dropZeros (rev ds)) with
    | [] => "0"%string
    | [d] => (sign ++ String d ("e+" ++ decimal (n - 1)))%string
    | d :: rest =>
        (sign ++ String d ("." ++ string_of_list_ascii rest
                               ++ "e+" ++ decimal (n - 1)))%string
    end.

(** The integer [n] of [x.toFixed(2)]: the one for which [n / 100] is
    nearest to the magnitude of [x], the larger one on a tie. *)
Definition hundredths (x : Q) : Z := Qfloor (Qabs x * 100 + (1 # 2))%Q.

(** [x.toFixed(2)]: the sign, then [n] printed with two decimals.  (From
    10^21 on JavaScript prints exponent notation instead; amounts of that
    size are printed plainly here.) *)
Definition toFixed2 (x : Q) : string :=
  let sign := if Qle_bool 0 x then ""%string else "-"%string in
  let n := hundredths x in
  let m := decimal n in
  let m := if n <? 10 then ("00" ++ m)%string
           else if n <? 100 then ("0" ++ m)%string else m in
  let k := String.length m in
  (sign ++ substring 0 (k - 2) m ++ "." ++ substring (k - 2) 2 m)%string.

(** The number that the numeral [toFixed2 x] denotes. *)
Definition fixed2Value (x : Q) : Q :=
  if Qle_bool 0 x then hundredths x # 100 else (- (hundredths x # 100))%Q.

End Js.

(** ** utils.js *)

Module Tier.

(** A price tier [{min, max, price}]; [max] is [None] for [null]. *)
Record t := mk { min : Z; max : option Z; price : Q }.

End Tier.

(** The values that reach [calculatePriceByTier] as arguments.  A number is
    an integer-valued one; an array is an array of tier objects. *)
Inductive value :=
| VUndefined
| VNull
| VBoolean (b : bool)
| VNaN
| VNumber (z : Z)
| VString (s : string)
| VArray (a : list Tier.t).

Module Utils.

Definition isArray (v : value) : bool :=
  match v with VArray _ => true | _ => false end.

(** [ToString(v)], as [parseInt] applies it to its argument. *)
Definition toString (v : value) : string :=
  match v with
  | VUndefined => "undefined"
  | VNull => "null"
  | VBoolean true => "true"
  | VBoolean false => "false"
  | VNaN => "NaN"
  | VNumber z => Js.numberToString z
  | VString s => s
  | VArray a => String.concat "," (map (fun _ => "[object Object]"%string) a)
  end.

Definition parseInt (v : value) : option Z := Js.parseIntString (toString v).

(** [quantity >= tier.min && (tier.max === null || quantity <= tier.max)] *)
Definition matches (quantity : Z) (tier : Tier.t) : bool :=
  (Tier.min tier <=? quantity)
  && match Tier.max tier with
     | None => true
     | Some m => quantity <=? m
     end.

(** The [for ... of] loop: the price of the first matching tier. *)
Fixpoint scanTiers (quantity : Z) (priceTiers : list Tier.t) : option Q :=
  match priceTiers with
  | [] => None
  | tier :: rest =>
      if matches quantity tier then Some (Tier.price tier)
      else scanTiers quantity rest
  end.

(** [priceTiers[priceTiers.length - 1].price], on a non-empty array. *)
Definition lastPrice (priceTiers : list Tier.t) : Q :=
  match nth_error priceTiers (List.length priceTiers - 1) with
  | Some tier => Tier.price tier
  | None => 0%Q
  end.

(** [quantity = parseInt(quantity) || 1] *)
Definition coerceQuantity (quantity : value) : Z :=
  Js.intOr (parseInt quantity) 1.

Definition calculatePriceByTier (quantity priceTiers : value) : Q :=
  match priceTiers with
  | VArray tiers =>
      if (List.length tiers =? 0)%nat then 0%Q
      else
        let quantity := coerceQuantity quantity in
        match scanTiers quantity tiers with
        | Some p => p
        | None => lastPrice tiers
        end
  | _ => 0%Q
  end.

End Utils.

(** ** assets/js/app.js *)

Module Machine.

(** A machine of [defaultMachines].  Its packing size, volume and weights
    play no part in the price and are left out. *)
Record t := mk {
  id : string;
  series : string;
  model : string;
  power : string;
  priceTiers : list Tier.t
}.

End Machine.

Module Item.

(** A water cooler or an accessory: an identifier and a flat price (the
    display name is left out). *)
Record t := mk { id : string; price : Q }.

End Item.

Module HistoryItem.

Record t := mk { id : string; date : string; total : string; details : string }.

End HistoryItem.

Module PriceDetails.

(** The object handed to [updatePriceDetails]. *)
Record t := mk {
  machinePrice : Q;
  waterCoolerPrice : Q;
  accessoriesPrice : Q;
  otherAccessoriesPrice : Q;
  internationalShipping : Q;
  domesticShipping : Q;
  otherFees : Q;
  quantity : Z;
  total : Q
}.

End PriceDetails.

Module State.

(** The fields of [appModule] set by [initDefaultData] ([templates], which
    nothing reads, is left out).  [selectedMachine] is [None] for [null]
    and [undefined]; [selectedWaterCooler] is [None] for [null]. *)
Record t := mk {
  exchangeRate : Q;
  priceSource : string;
  quantity : Z;
  internationalShipping : Q;
  domesticShipping : Q;
  otherFees : Q;
  country : string;
  selectedMachine : option Machine.t;
  selectedWaterCooler : option string;
  selectedAccessories : list string;
  selectedOtherAccessories : list string;
  history : list HistoryItem.t
}.

Definition setExchangeRate (x : Q) (s : t) : t :=
  mk x (priceSource s) (quantity s) (internationalShipping s)
     (domesticShipping s) (otherFees s) (country s) (selectedMachine s)
     (selectedWaterCooler s) (selectedAccessories s)
     (selectedOtherAccessories s) (history s).

Definition setQuantity (x : Z) (s : t) : t :=
  mk (exchangeRate s) (priceSource s) x (internationalShipping s)
     (domesticShipping s) (otherFees s) (country s) (selectedMachine s)
     (selectedWaterCooler s) (selectedAccessories s)
     (selectedOtherAccessories s) (history s).

Definition setInternationalShipping (x : Q) (s : t) : t :=
  mk (exchangeRate s) (priceSource s) (quantity s) x
     (domesticShipping s) (otherFees s) (country s) (selectedMachine s)
     (selectedWaterCooler s) (selectedAccessories s)
     (selectedOtherAccessories s) (history s).

Definition setDomesticShipping (x : Q) (s : t) : t :=
  mk (exchangeRate s) (priceSource s) (quantity s) (internationalShipping s)
     x (otherFees s) (country s) (selectedMachine s)
     (selectedWaterCooler s) (selectedAccessories s)
     (selectedOtherAccessories s) (history s).

Definition setOtherFees (x : Q) (s : t) : t :=
  mk (exchangeRate s) (priceSource s) (quantity s) (internationalShipping s)
     (domesticShipping s) x (country s) (selectedMachine s)
     (selectedWaterCooler s) (selectedAccessories s)
     (selectedOtherAccessories s) (history s).

Definition setCountry (x : string) (s : t) : t :=
  mk (exchangeRate s) (priceSource s) (quantity s) (internationalShipping s)
     (domesticShipping s) (otherFees s) x (selectedMachine s)
     (selectedWaterCooler s) (selectedAccessories s)
     (selectedOtherAccessories s) (history s).

Definition setSelectedMachine (x : option Machine.t) (s : t) : t :=
  mk (exchangeRate s) (priceSource s) (quantity s) (internationalShipping s)
     (domesticShipping s) (otherFees s) (country s) x
     (selectedWaterCooler s) (selectedAccessories s)
     (selectedOtherAccessories s) (history s).

Definition setSelectedWaterCooler (x : option string) (s : t) : t :=
  mk (exchangeRate s) (priceSource s) (quantity s) (internationalShipping s)
     (domesticShipping s) (otherFees s) (country s) (selectedMachine s)
     x (selectedAccessories s) (selectedOtherAccessories s) (history s).

Definition setSelectedAccessories (x : list string) (s : t) : t :=
  mk (exchangeRate s) (priceSource s) (quantity s) (internationalShipping s)
     (domesticShipping s) (otherFees s) (country s) (selectedMachine s)
     (selectedWaterCooler s) x (selectedOtherAccessories s) (history s).

Definition setSelectedOtherAccessories (x : list string) (s : t) : t :=
  mk (exchangeRate s) (priceSource s) (quantity s) (internationalShipping s)
     (domesticShipping s) (otherFees s) (country s) (selectedMachine s)
     (selectedWaterCooler s) (selectedAccessories s) x (history s).

Definition setHistory (x : list HistoryItem.t) (s : t) : t :=
  mk (exchangeRate s) (priceSource s) (quantity s) (internationalShipping s)
     (domesticShipping s) (otherFees s) (country s) (selectedMachine s)
     (selectedWaterCooler s) (selectedAccessories s)
     (selectedOtherAccessories s) x.

End State.

Module Outcome.

(** What one run of [calculatePrice] computes: the total it returns, the
    dollar price it shows next to it, and the details it hands over.
    [usdPrice] is [None] when the division yields no finite number. *)
Record t := mk {
  totalPrice : Q;
  usdPrice : option Q;
  details : PriceDetails.t
}.

End Outcome.

Module App.

Local Open Scope string_scope.

Definition defaultMachines : list Machine.t :=
  [ Machine.mk "kh-1390-50w" "KH-1390" "1390" "50W"
      [ Tier.mk 1 (Some 9) 10000; Tier.mk 10 (Some 99) 9500;
        Tier.mk 100 None 9000 ];
    Machine.mk "kh-1390-80w" "KH-1390" "1390" "80W"
      [ Tier.mk 1 (Some 9) 12000; Tier.mk 10 (Some 99) 11500;
        Tier.mk 100 None 11000 ];
    Machine.mk "kh-1390-100w" "KH-1390" "1390" "100W"
      [ Tier.mk 1 (Some 9) 14000; Tier.mk 10 (Some 99) 13500;
        Tier.mk 100 None 13000 ];
    Machine.mk "kh-1610-50w" "KH-1610" "1610" "50W"
      [ Tier.mk 1 (Some 9) 12000; Tier.mk 10 (Some 99) 11500;
        Tier.mk 100 None 11000 ];
    Machine.mk "kh-1610-80w" "KH-1610" "1610" "80W"
      [ Tier.mk 1 (Some 9) 14000; Tier.mk 10 (Some 99) 13500;
        Tier.mk 100 None 13000 ];
    Machine.mk "kh-1610-100w" "KH-1610" "1610" "100W"
      [ Tier.mk 1 (Some 9) 16000; Tier.mk 10 (Some 99) 15500;
        Tier.mk 100 None 15000 ] ].

Definition defaultWaterCoolers : list Item.t :=
  [ Item.mk "water-cooler-50w" 800;
    Item.mk "water-cooler-80w" 1000;
    Item.mk "water-cooler-100w" 1200 ].

Definition defaultAccessories : list Item.t :=
  [ Item.mk "accessory-laser-tube" 1500;
    Item.mk "accessory-mirror" 200;
    Item.mk "accessory-lens" 150;
    Item.mk "accessory-power-supply" 800 ].

Definition defaultOtherAccessories : list Item.t :=
  [ Item.mk "other-accessory-chiller" 2000;
    Item.mk "other-accessory-exhaust-fan" 300;
    Item.mk "other-accessory-air-compressor" 1500;
    Item.mk "other-accessory-software" 1000;
    Item.mk "other-accessory-training" 500;
    Item.mk "other-accessory-warranty" 800 ].

(** [initDefaultData]; [stored] is what [loadHistory] reads back from the
    local storage, a list of entries as [saveHistory] writes it. *)
Definition initDefaultData (stored : list HistoryItem.t) : State.t :=
  State.mk (65 # 10) "tier1" 1 0 0 0 "US" None None [] [] stored.

(** [catalog.find(x => x.id === id)] *)
Definition findById (id : string) (catalog : list Item.t) : option Item.t :=
  find (fun x => String.eqb (Item.id x) id) catalog.

(** [priceTiers[0].price]; [None] is the [TypeError] of reading [price]
    off [undefined] when the array is empty. *)
Definition firstPrice (priceTiers : list Tier.t) : option Q :=
  match priceTiers with
  | tier :: _ => Some (Tier.price tier)
  | [] => None
  end.

(** [priceTiers.find(tier => ...)?.price || priceTiers[0].price], the
    test being that of [Utils.matches] on [this.quantity]. *)
Definition unitPrice (quantity : Z) (priceTiers : list Tier.t) : option Q :=
  match find (Utils.matches quantity) priceTiers with
  | Some tier =>
      if Js.truthy (Tier.price tier) then Some (Tier.price tier)
      else firstPrice priceTiers
  | None => firstPrice priceTiers
  end.

(** The body of the two [forEach] loops over selected identifiers. *)
Definition addPrice (catalog : list Item.t) (acc : Q) (id : string) : Q :=
  match findById id catalog with
  | Some accessory => (acc + Item.price accessory)%Q
  | None => acc
  end.

Definition machinePrice (s : State.t) : option Q :=
  match State.selectedMachine s with
  | Some m =>
      match unitPrice (State.quantity s) (Machine.priceTiers m) with
      | Some price => Some (price * inject_Z (State.quantity s))%Q
      | None => None
      end
  | None => Some 0%Q
  end.

Definition waterCoolerPrice (s : State.t) : Q :=
  match State.selectedWaterCooler s with
  | Some id =>
      if String.eqb id "" then 0%Q
      else
        match findById id defaultWaterCoolers with
        | Some waterCooler =>
            (Item.price waterCooler * inject_Z (State.quantity s))%Q
        | None => 0%Q
        end
  | None => 0%Q
  end.

Definition accessoriesPrice (s : State.t) : Q :=
  fold_left (addPrice defaultAccessories) (State.selectedAccessories s) 0%Q.

Definition otherAccessoriesPrice (s : State.t) : Q :=
  fold_left (addPrice defaultOtherAccessories)
    (State.selectedOtherAccessories s) 0%Q.

(** [calculatePrice]; [None] when reading the machine's price throws. *)
Definition calculatePrice (s : State.t) : option Outcome.t :=
  match machinePrice s with
  | None => None
  | Some machinePrice =>
      let waterCoolerPrice := waterCoolerPrice s in
      let accessoriesPrice := accessoriesPrice s in
      let otherAccessoriesPrice := otherAccessoriesPrice s in
      let totalPrice :=
        (machinePrice + waterCoolerPrice + accessoriesPrice
         + otherAccessoriesPrice + State.internationalShipping s
         + State.domesticShipping s + State.otherFees s)%Q in
      let usdPrice := Js.divide totalPrice (State.exchangeRate s) in
      Some (Outcome.mk totalPrice usdPrice
              (PriceDetails.mk machinePrice waterCoolerPrice
                 accessoriesPrice otherAccessoriesPrice
                 (State.internationalShipping s) (State.domesticShipping s)
                 (State.otherFees s) (State.quantity s) totalPrice))
  end.

(** [selectMachine(power)]; [series] and [model] are the values of the two
    select boxes it reads. *)
Definition selectMachine (series model power : string) (s : State.t) : State.t :=
  if negb (String.eqb series "") && negb (String.eqb model "")
     && negb (String.eqb power "")
  then
    State.setSelectedMachine
      (find (fun machine =>
               String.eqb (Machine.series machine) series
               && String.eqb (Machine.model machine) model
               && String.eqb (Machine.power machine) power)
            defaultMachines) s
  else s.

Definition yen : string := String (ascii_of_nat 165) "".
Definition times : string := String (ascii_of_nat 215) "".

(** The [historyItem] object of [addHistory]; [newId] and [now] are what
    [generateUniqueId] and [formatDateTime] (or their fall-backs) return. *)
Definition historyItem (newId now : string) (m : Machine.t) (quantity : Z)
    (total : Q) : HistoryItem.t :=
  HistoryItem.mk newId now
    (yen ++ Js.toFixed2 total)
    (Machine.series m ++ " " ++ Machine.model m ++ " " ++ Machine.power m
     ++ " " ++ times ++ " " ++ Js.numberToString quantity).

(** [addHistory]; [None] when [calculatePrice] throws, the history then
    being left as it was.  Saving the list and refreshing the panel belong
    to the storage and the user interface. *)
Definition addHistory (newId now : string) (s : State.t) : option State.t :=
  match State.selectedMachine s with
  | None => Some s
  | Some m =>
      match calculatePrice s with
      | None => None
      | Some out =>
          let historyItem :=
            historyItem newId now m (State.quantity s)
              (Outcome.totalPrice out) in
          Some (State.setHistory (historyItem :: State.history s) s)
      end
  end.

Definition clearHistory (s : State.t) : State.t := State.setHistory [] s.

(** The events the listeners of [initEventListeners] react to, and the
    two history operations.  A field read with [parseFloat] carries the
    outcome of that call, a finite number or [None] for [NaN]. *)
Inductive event :=
| ExchangeRateInput (parsed : option Q)
| QuantityInput (text : string)
| InternationalShippingInput (parsed : option Q)
| DomesticShippingInput (parsed : option Q)
| OtherFeesInput (parsed : option Q)
| CountryChange (v : string)
| SeriesChange
| ModelChange
| PowerChange (series model power : string)
| WaterCoolerChange (v : string)
| AccessoryChange (checked : list string)
| OtherAccessoryChange (checked : list string)
| ClearHistory
| AddHistory (newId now : string).

(** The state after a listener has run.  Each listener ends with a call
    of [calculatePrice], which reads the state without changing it. *)
Definition step (e : event) (s : State.t) : State.t :=
  match e with
  | ExchangeRateInput parsed =>
      State.setExchangeRate (Js.numOr parsed (65 # 10)) s
  | QuantityInput text =>
      State.setQuantity (Js.intOr (Js.parseIntString text) 1) s
  | InternationalShippingInput parsed =>
      State.setInternationalShipping (Js.numOr parsed 0) s
  | DomesticShippingInput parsed =>
      State.setDomesticShipping (Js.numOr parsed 0) s
  | OtherFeesInput parsed => State.setOtherFees (Js.numOr parsed 0) s
  | CountryChange v => State.setCountry v s
  | SeriesChange => State.setSelectedMachine None s
  | ModelChange => State.setSelectedMachine None s
  | PowerChange series model power => selectMachine series model power s
  | WaterCoolerChange v => State.setSelectedWaterCooler (Some v) s
  | AccessoryChange checked => State.setSelectedAccessories checked s
  | OtherAccessoryChange checked =>
      State.setSelectedOtherAccessories checked s
  | ClearHistory => clearHistory s
  | AddHistory newId now =>
      match addHistory newId now s with
      | Some s' => s'
      | None => s
      end
  end.

(** The states the page can be in: [init] followed by any events. *)
Inductive reachable : State.t -> Prop :=
| reachable_init stored : reachable (initDefaultData stored)
| reachable_step e s : reachable s -> reachable (step e s).

End App.

(** ** Notions of the specification *)

(** A well-formed tier table, in the words of the data model: the tiers
    partition the integers from [lo] on, in ascending order, without gap or
    overlap, and only the last tier is unbounded. *)
Fixpoint partitionsFrom (lo : Z) (tiers : list Tier.t) : bool :=
  match tiers with
  | [] => false
  | tier :: rest =>
      (Tier.min tier =? lo)
      && match Tier.max tier, rest with
         | None, [] => true
         | Some m, _ :: _ => (lo <=? m) && partitionsFrom (m + 1) rest
         | _, _ => false
         end
  end.

Definition wellFormed (tiers : list Tier.t) : bool := partitionsFrom 1 tiers.


(** The tiers of the first default machine, also the table of the
    specification's scenario. *)
Definition scenarioTiers : list Tier.t :=
  [ Tier.mk 1 (Some 9) 10000; Tier.mk 10 (Some 99) 9500;
    Tier.mk 100 None 9000 ].

(** A table with a gap between 10 and 19. *)
Definition gappedTiers : list Tier.t :=
  [ Tier.mk 1 (Some 9) 100; Tier.mk 20 None 80 ].

(** The selected machine, if any, has a tier to read a price from: the
    condition under which [calculatePrice] does not throw. *)
Definition hasTiers (s : State.t) : Prop :=
  forall m, State.selectedMachine s = Some m -> Machine.priceTiers m <> [].

(** What [init] establishes and every listener preserves. *)
Definition invariant (s : State.t) : Prop :=
  ~ (State.exchangeRate s == 0)%Q
  /\ State.quantity s <> 0
  /\ forall m, State.selectedMachine s = Some m -> In m App.defaultMachines.

(** The catalogue items that a list of selected identifiers denotes, one
    per identifier found, in the order of selection. *)
Definition selectedItems (catalog : list Item.t) (ids : list string) : list Item.t :=
  flat_map (fun id => match App.findById id catalog with
                      | Some item => [item]
                      | None => []
                      end) ids.

(** The plain sum of the flat prices of a list of items. *)
Definition sumPrices (items : list Item.t) : Q :=
  fold_right (fun item acc => (Item.price item + acc)%Q) 0%Q items.

(** The state of the specification's scenario: the 50 W machine of the
    KH-1390 series, quantity 1, the 50 W water cooler, the laser tube,
    shipping 200 and 100, other fees 50, exchange rate 6.5. *)
Definition scenarioState : State.t :=
  App.step (App.OtherFeesInput (Some 50%Q))
    (App.step (App.DomesticShippingInput (Some 100%Q))
       (App.step (App.InternationalShippingInput (Some 200%Q))
          (App.step (App.AccessoryChange ["accessory-laser-tube"%string])
             (App.step (App.WaterCoolerChange "water-cooler-50w")
                (App.step (App.PowerChange "KH-1390" "1390" "50W")
                   (App.initDefaultData [])))))).

(** ** assets/js/app.js: the options of the select boxes *)

Module Options.

(** [Array.from(new Set(items))]: the elements of [items] in the order of
    their first occurrence, each once; [seen] holds those met so far. *)
Fixpoint unique (seen items : list string) : list string :=
  match items with
  | [] => []
  | x :: rest =>
      if existsb (String.eqb x) seen then unique seen rest
      else x :: unique (x :: seen) rest
  end.

Section Machines.

Variable machines : list Machine.t.

(** The series that [updateMachineOptions] offers. *)
Definition seriesList : list string :=
  unique [] (map Machine.series machines).

(** The models that [updateModelOptions(series)] offers: none for the empty
    series of the placeholder option. *)
Definition modelList (series : string) : list string :=
  if String.eqb series "" then []
  else
    unique []
      (map Machine.model
         (filter (fun machine => String.eqb (Machine.series machine) series)
            machines)).

(** The powers that [updatePowerOptions(model)] offers, [series] being the
    value of the series select box it reads. *)
Definition powerList (series model : string) : list string :=
  if String.eqb model "" then []
  else
    map Machine.power
      (filter (fun machine =>
                 String.eqb (Machine.series machine) series
                 && String.eqb (Machine.model machine) model)
         machines).

(** The machine that [selectMachine] looks up. *)
Definition findMachine (series model power : string) : option Machine.t :=
  find (fun machine =>
          String.eqb (Machine.series machine) series
          && String.eqb (Machine.model machine) model
          && String.eqb (Machine.power machine) power)
       machines.

End Machines.

End Options.

(** ** utils.js: the other functions *)

Module Tools.

(** [\d], a decimal digit. *)
Definition isDigit (c : ascii) : bool :=
  let n := N_of_ascii c in (N.leb 48 n && N.leb n 57)%bool.

(** The digits a string starts with. *)
Fixpoint digitRun (s : string) : string :=
  match s with
  | String c r => if isDigit c then String c (digitRun r) else EmptyString
  | EmptyString => EmptyString
  end.

(** [s.match(/\d+/)]: the match is the leftmost one and, [+] being greedy,
    holds the first digit of [s] and every digit that follows it at once;
    [None] is [null]. *)
Fixpoint matchDigits (s : string) : option string :=
  match s with
  | String c r => if isDigit c then Some (digitRun s) else matchDigits r
  | EmptyString => None
  end.

(** [extractPowerFromString]; the result is that of [parseInt], with [None]
    for [NaN]. *)
Definition extractPowerFromString (powerString : value) : option Z :=
  match powerString with
  | VString s =>
      if String.eqb s "" then Some 0
      else
        match matchDigits s with
        | Some m => Js.parseIntString m
        | None => Some 0
        end
  | _ => Some 0
  end.

(** [parseNumber]; [parsed] is the outcome of [parseFloat(value)], [None]
    for [NaN]. *)
Definition parseNumber (parsed : option Q) (defaultValue : Q) : Q :=
  match parsed with
  | None => defaultValue
  | Some q => q
  end.

(** [calculateVolumeWeight]; an argument is [None] when it is [undefined]
    or [NaN], which [!] takes for false like zero. *)
Definition calculateVolumeWeight (length width height : option Q) : Q :=
  match length, width, height with
  | Some l, Some w, Some h =>
      if (negb (Js.truthy l) || negb (Js.truthy w) || negb (Js.truthy h))%bool
      then 0%Q
      else (l * w * h / 5000)%Q
  | _, _, _ => 0%Q
  end.

Definition calculateCBM (length width height : option Q) : Q :=
  match length, width, height with
  | Some l, Some w, Some h =>
      if (negb (Js.truthy l) || negb (Js.truthy w) || negb (Js.truthy h))%bool
      then 0%Q
      else (l * w * h / 1000000)%Q
  | _, _, _ => 0%Q
  end.

End Tools.

(** A string of decimal digits only. *)
Fixpoint allDigits (s : string) : bool :=
  match s with
  | String c r => (Tools.isDigit c && allDigits r)%bool
  | EmptyString => true
  end.

(** A string without any decimal digit. *)
Fixpoint noDigit (s : string) : bool :=
  match s with
  | String c r => (negb (Tools.isDigit c) && noDigit r)%bool
  | EmptyString => true
  end.

(** A string whose first character is a decimal digit. *)
Definition startsWithDigit (s : string) : bool :=
  match s with
  | String c _ => Tools.isDigit c
  | EmptyString => false
  end.

(** A table whose prices do not rise from one tier to the next. *)
Fixpoint descending (tiers : list Tier.t) : bool :=
  match tiers with
  | tier :: (next :: _) as rest =>
      Qle_bool (Tier.price next) (Tier.price tier) && descending rest
  | _ => true
  end.

(** ** Regular expressions, as [RegExp.prototype.test] uses them *)

Module Regex.

(** The regular expressions of utils.js use character classes,
    concatenation and repetition; [Never] and [Alt] arise from derivation. *)
Inductive t :=
| Never
| Empty
| Class (p : ascii -> bool)
| Cat (r1 r2 : t)
| Alt (r1 r2 : t)
| Star (r : t).

(** [r+] *)
Definition plus (r : t) : t := Cat r (Star r).

(** [r{n}] *)
Fixpoint times (n : nat) (r : t) : t :=
  match n with
  | O => Empty
  | S n' => Cat r (times n' r)
  end.

Fixpoint nullable (r : t) : bool :=
  match r with
  | Never => false
  | Empty => true
  | Class _ => false
  | Cat r1 r2 => nullable r1 && nullable r2
  | Alt r1 r2 => nullable r1 || nullable r2
  | Star _ => true
  end.

(** What is left of [r] to match once [c] has been read. *)
Fixpoint derive (c : ascii) (r : t) : t :=
  match r with
  | Never => Never
  | Empty => Never
  | Class p => if p c then Empty else Never
  | Cat r1 r2 =>
      if nullable r1 then Alt (Cat (derive c r1) r2) (derive c r2)
      else Cat (derive c r1) r2
  | Alt r1 r2 => Alt (derive c r1) (derive c r2)
  | Star r1 => Cat (derive c r1) (Star r1)
  end.

(** [/^r$/.test(s)]: the whole of [s] matches [r]. *)
Fixpoint test (r : t) (s : string) : bool :=
  match s with
  | EmptyString => nullable r
  | String c rest => test (derive c r) rest
  end.

(** The texts a regular expression stands for. *)
Inductive lang : t -> string -> Prop :=
| lang_empty : lang Empty EmptyString
| lang_class p c : p c = true -> lang (Class p) (String c EmptyString)
| lang_cat r1 r2 s1 s2 : lang r1 s1 -> lang r2 s2 -> lang (Cat r1 r2) (s1 ++ s2)
| lang_alt_l r1 r2 s : lang r1 s -> lang (Alt r1 r2) s
| lang_alt_r r1 r2 s : lang r2 s -> lang (Alt r1 r2) s
| lang_star_nil r : lang (Star r) EmptyString
| lang_star_cons r s1 s2 :
    lang r s1 -> lang (Star r) s2 -> lang (Star r) (s1 ++ s2).

End Regex.

(** ** utils.js: the validators *)

Module Validate.

(** [[^\s@]] *)
Definition notSpaceNorAt (c : ascii) : bool :=
  negb (Js.isWhiteSpace c || Ascii.eqb c "@").

(** [/^[^\s@]+@[^\s@]+\.[^\s@]+$/] *)
Definition emailRegex : Regex.t :=
  Regex.Cat (Regex.plus (Regex.Class notSpaceNorAt))
    (Regex.Cat (Regex.Class (Ascii.eqb "@"))
       (Regex.Cat (Regex.plus (Regex.Class notSpaceNorAt))
          (Regex.Cat (Regex.Class (Ascii.eqb "."))
             (Regex.plus (Regex.Class notSpaceNorAt))))).

(** [validateEmail]; [test] takes the text of its argument. *)
Definition validateEmail (email : value) : bool :=
  Regex.test emailRegex (Utils.toString email).

(** [[3-9]] *)
Definition from3to9 (c : ascii) : bool :=
  let n := N_of_ascii c in (N.leb 51 n && N.leb n 57)%bool.

(** [/^1[3-9]\d{9}$/] *)
Definition phoneRegex : Regex.t :=
  Regex.Cat (Regex.Class (Ascii.eqb "1"))
    (Regex.Cat (Regex.Class from3to9)
       (Regex.times 9 (Regex.Class Tools.isDigit))).

Definition validatePhone (phone : value) : bool :=
  Regex.test phoneRegex (Utils.toString phone).

End Validate.

(** Every character of a string satisfies [p]. *)
Fixpoint allChars (p : ascii -> bool) (s : string) : bool :=
  match s with
  | String c r => (p c && allChars p r)%bool
  | EmptyString => true
  end.

(** How often a character occurs in a string. *)
Fixpoint occurrences (c : ascii) (s : string) : nat :=
  match s with
  | String x r => ((if Ascii.eqb x c then 1 else 0) + occurrences c r)%nat
  | EmptyString => 0%nat
  end.

(** A part of a mail address: not empty, without white space or [@]. *)
Definition addressPart (s : string) : Prop :=
  s <> EmptyString /\ allChars Validate.notSpaceNorAt s = true.

(** ** JSON texts of the history, as [JSON.stringify] writes them *)

Module Json.

Local Open Scope string_scope.

(** The double quote and the backslash. *)
Definition dq : string := String "034" "".
Definition bs : string := String "092" "".

Definition hexChar (n : N) : ascii :=
  match get (N.to_nat n) "0123456789abcdef" with
  | Some c => c
  | None => "0"%char
  end.

(** A character inside a JSON string: the quote, the backslash and the
    control characters are escaped, the others stand for themselves. *)
Definition escapeChar (c : ascii) : string :=
  match c with
  | "034"%char => bs ++ dq
  | "092"%char => bs ++ bs
  | "008"%char => bs ++ "b"
  | "009"%char => bs ++ "t"
  | "010"%char => bs ++ "n"
  | "012"%char => bs ++ "f"
  | "013"%char => bs ++ "r"
  | _ =>
      if (N_of_ascii c <? 32)%N
      then bs ++ "u00"
           ++ String (hexChar (N_of_ascii c / 16)) ""
           ++ String (hexChar (N_of_ascii c mod 16)) ""
      else String c ""
  end.

Fixpoint escape (s : string) : string :=
  match s with
  | String c r => escapeChar c ++ escape r
  | EmptyString => EmptyString
  end.

(** A string as a JSON text. *)
Definition quote (s : string) : string := dq ++ escape s ++ dq.

(** ["name":] *)
Definition key (name : string) : string := dq ++ name ++ dq ++ ":".

(** [JSON.stringify] of a history entry: its four properties in the order
    in which [addHistory] wrote them. *)
Definition stringifyItem (item : HistoryItem.t) : string :=
  "{" ++ key "id" ++ quote (HistoryItem.id item)
  ++ "," ++ key "date" ++ quote (HistoryItem.date item)
  ++ "," ++ key "total" ++ quote (HistoryItem.total item)
  ++ "," ++ key "details" ++ quote (HistoryItem.details item) ++ "}".

(** [JSON.stringify(history)] *)
Definition stringifyHistory (history : list HistoryItem.t) : string :=
  "[" ++ String.concat "," (map stringifyItem history) ++ "]".

Definition hexValue (c : ascii) : option N :=
  let n := N_of_ascii c in
  if (48 <=? n)%N && (n <=? 57)%N then Some (n - 48)%N
  else if (97 <=? n)%N && (n <=? 102)%N then Some (n - 87)%N
  else if (65 <=? n)%N && (n <=? 70)%N then Some (n - 55)%N
  else None.

(** The character written [\uXXXX], when its code is below 256. *)
Definition hex4 (h1 h2 h3 h4 : ascii) : option ascii :=
  match hexValue h1, hexValue h2, hexValue h3, hexValue h4 with
  | Some a, Some b, Some c, Some d =>
      let code := (((a * 16 + b) * 16 + c) * 16 + d)%N in
      if (code <? 256)%N then Some (ascii_of_N code) else None
  | _, _, _, _ => None
  end.

Definition consChar (c : ascii) (r : option (string * string))
  : option (string * string) :=
  match r with
  | Some (s, rest) => Some (String c s, rest)
  | None => None
  end.

(** Reads the inside of a JSON string up to its closing quote and returns
    the string it stands for and the text that follows; [None] for a text
    that [JSON.parse] rejects. *)
Fixpoint unescape (s : string) : option (string * string) :=
  match s with
  | EmptyString => None
  | String "034" rest => Some (EmptyString, rest)
  | String "092" (String e rest) =>
      match e with
      | "034"%char => consChar "034" (unescape rest)
      | "092"%char => consChar "092" (unescape rest)
      | "/"%char => consChar "/" (unescape rest)
      | "b"%char => consChar "008" (unescape rest)
      | "t"%char => consChar "009" (unescape rest)
      | "n"%char => consChar "010" (unescape rest)
      | "f"%char => consChar "012" (unescape rest)
      | "r"%char => consChar "013" (unescape rest)
      | "u"%char =>
          match rest with
          | String h1 (String h2 (String h3 (String h4 rest'))) =>
              match hex4 h1 h2 h3 h4 with
              | Some c => consChar c (unescape rest')
              | None => None
              end
          | _ => None
          end
      | _ => None
      end
  | String "092" EmptyString => None
  | String c rest =>
      if (N_of_ascii c <? 32)%N then None else consChar c (unescape rest)
  end.

(** The text that follows the prefix [p], when the text starts with it. *)
Fixpoint expect (p s : string) : option string :=
  match p, s with
  | EmptyString, _ => Some s
  | String a p', String b s' => if Ascii.eqb a b then expect p' s' else None
  | String _ _, EmptyString => None
  end.

(** A property [,"name":"..."] (or [{"name":"..."] for the first one). *)
Definition property (opening name : string) (s : string)
  : option (string * string) :=
  match expect (opening ++ key name ++ dq) s with
  | Some rest => unescape rest
  | None => None
  end.

(** An entry as [stringifyItem] writes it, and the text that follows. *)
Definition parseItem (s : string) : option (HistoryItem.t * string) :=
  match property "{" "id" s with
  | Some (id, s1) =>
      match property "," "date" s1 with
      | Some (date, s2) =>
          match property "," "total" s2 with
          | Some (total, s3) =>
              match property "," "details" s3 with
              | Some (details, s4) =>
                  match expect "}" s4 with
                  | Some s5 => Some (HistoryItem.mk id date total details, s5)
                  | None => None
                  end
              | None => None
              end
          | None => None
          end
      | None => None
      end
  | None => None
  end.

(** The entries up to the closing bracket; [fuel] bounds their number. *)
Fixpoint parseItems (fuel : nat) (s : string) : option (list HistoryItem.t) :=
  match fuel with
  | O => None
  | S fuel' =>
      match parseItem s with
      | Some (item, String "]" EmptyString) => Some [item]
      | Some (item, String "," rest) =>
          match parseItems fuel' rest with
          | Some items => Some (item :: items)
          | None => None
          end
      | _ => None
      end
  end.

(** [JSON.parse(text)] for the texts that [stringifyHistory] writes;
    [None] stands for the [SyntaxError] of a text that is no JSON and for
    any text that is not a history written this way. *)
Definition parseHistory (text : string) : option (list HistoryItem.t) :=
  match text with
  | String "[" (String "]" EmptyString) => Some []
  | String "[" rest => parseItems (String.length rest) rest
  | _ => None
  end.

End Json.

(** ** utils.js and app.js: the local storage *)

Module LocalStorage.

(** The storage area of the page: its key/value pairs, whether access to
    it throws (storage disabled), and whether [setItem] throws (quota
    exceeded). *)
Record t := mk {
  items : list (string * string);
  blocked : bool;
  full : bool
}.

Definition getItem (key : string) (st : t) : option string :=
  match find (fun kv => String.eqb (fst kv) key) (items st) with
  | Some kv => Some (snd kv)
  | None => None
  end.

Definition without (key : string) (kvs : list (string * string))
  : list (string * string) :=
  filter (fun kv => negb (String.eqb (fst kv) key)) kvs.

Definition setItem (key text : string) (st : t) : t :=
  mk ((key, text) :: without key (items st)) (blocked st) (full st).

Definition removeItem (key : string) (st : t) : t :=
  mk (without key (items st)) (blocked st) (full st).

Definition clear (st : t) : t := mk [] (blocked st) (full st).

End LocalStorage.

Module Store.

Section Codec.

(** [JSON.stringify] and [JSON.parse] at the type of the values stored;
    [parse] gives [None] where [JSON.parse] throws. *)
Context {V : Type}.
Variable stringify : V -> string.
Variable parse : string -> option V.

(** [getFromLocalStorage]: the default when the storage throws, when the
    key has no text or an empty one, and when the text does not parse. *)
Definition getFromLocalStorage (key : string) (defaultValue : V)
    (st : LocalStorage.t) : V :=
  if LocalStorage.blocked st then defaultValue
  else
    match LocalStorage.getItem key st with
    | Some item =>
        if String.eqb item "" then defaultValue
        else
          match parse item with
          | Some value => value
          | None => defaultValue
          end
    | None => defaultValue
    end.

(** [saveToLocalStorage]: whether it succeeded, and the storage after. *)
Definition saveToLocalStorage (key : string) (value : V)
    (st : LocalStorage.t) : bool * LocalStorage.t :=
  if LocalStorage.blocked st || LocalStorage.full st then (false, st)
  else (true, LocalStorage.setItem key (stringify value) st).

End Codec.

Definition removeFromLocalStorage (key : string) (st : LocalStorage.t)
  : bool * LocalStorage.t :=
  if LocalStorage.blocked st then (false, st)
  else (true, LocalStorage.removeItem key st).

Definition clearLocalStorage (st : LocalStorage.t) : bool * LocalStorage.t :=
  if LocalStorage.blocked st then (false, st)
  else (true, LocalStorage.clear st).

End Store.

(** ** assets/js/app.js: the history and the storage *)

Module Page.

(** The page: the state of [appModule] and the local storage. *)
Definition t : Type := State.t * LocalStorage.t.

(** [saveHistory] *)
Definition saveHistory (s : State.t) (st : LocalStorage.t) : LocalStorage.t :=
  snd (Store.saveToLocalStorage Json.stringifyHistory "quoteHistory"
         (State.history s) st).

(** [loadHistory] *)
Definition loadHistory (st : LocalStorage.t) (s : State.t) : State.t :=
  State.setHistory
    (Store.getFromLocalStorage Json.parseHistory "quoteHistory" [] st) s.

(** [init] on a page load: the default data, with the history read back. *)
Definition init (st : LocalStorage.t) : t :=
  (loadHistory st (App.initDefaultData []), st).

(** [addHistory], with the [saveHistory] it ends with. *)
Definition addHistory (newId now : string) (page : t) : t :=
  let '(s, st) := page in
  match State.selectedMachine s with
  | None => page
  | Some _ =>
      match App.addHistory newId now s with
      | Some s' => (s', saveHistory s' st)
      | None => page
      end
  end.

(** [clearHistory], with the [saveHistory] it ends with. *)
Definition clearHistory (page : t) : t :=
  let '(s, st) := page in
  (App.clearHistory s, saveHistory (App.clearHistory s) st).

End Page.

(** ** utils.js: [formatPrice] *)

Module Format.

(** A JavaScript number as [formatPrice] may meet it: a finite number,
    an infinity, or [NaN]. *)
Inductive number :=
| Finite (q : Q)
| Infinity (negative : bool)
| NaN.

(** The [price] argument of [formatPrice]: a number, or a value that is
    not a number, of which only the outcome of [parseFloat] matters. *)
Inductive amount :=
| Number (n : number)
| NotNumber (parsed : number).

(** [p || 0] *)
Definition orZero (p : number) : number :=
  match p with
  | Finite q => if Js.truthy q then p else Finite 0
  | Infinity _ => p
  | NaN => Finite 0
  end.

(** The number that is printed: the price itself when it is a number,
    which [NaN] is, and [parseFloat(price) || 0] otherwise. *)
Definition numberOf (price : amount) : number :=
  match price with
  | Number n => n
  | NotNumber parsed => orZero parsed
  end.

(** [price.toFixed(2)] *)
Definition toFixed (price : number) : string :=
  match price with
  | Finite q => Js.toFixed2 q
  | Infinity false => "Infinity"
  | Infinity true => "-Infinity"
  | NaN => "NaN"
  end.

Definition formatPrice (price : amount) (currency : string) : string :=
  let price := numberOf price in
  if String.eqb currency "USD" then ("$" ++ toFixed price)%string
  else (App.yen ++ toFixed price)%string.

End Format.

(** The text before and the text after the first [c] of a string. *)
Fixpoint splitAt (c : ascii) (s : string) : option (string * string) :=
  match s with
  | EmptyString => None
  | String x r =>
      if Ascii.eqb x c then Some (EmptyString, r)
      else
        match splitAt c r with
        | Some (a, b) => Some (String x a, b)
        | None => None
        end
  end.

(** The amount that a numeral with two decimals denotes: an optional minus
    sign, digits, a point and two digits. *)
Definition readAmount (s : string) : option Q :=
  let '(negative, body) :=
    match s with
    | String "-" r => (true, r)
    | _ => (false, s)
    end in
  match splitAt "." body with
  | Some (units, hundredths) =>
      if negb (String.eqb units "") && allDigits units
         && allDigits hundredths && (String.length hundredths =? 2)%nat
      then
        match Js.readDigits 10 units (Some 0),
              Js.readDigits 10 hundredths (Some 0) with
        | Some u, Some h =>
            Some (if negative then (- ((u * 100 + h) # 100))%Q
                  else (u * 100 + h) # 100)
        | _, _ => None
        end
      else None
  | None => None
  end.

(** ** The tier resolver *)

(** The scenario of the specification: 5, 50 and 500 units. *)
Example scenario_tier_prices :
  Utils.calculatePriceByTier (VNumber 5) (VArray scenarioTiers) = 10000%Q
  /\ Utils.calculatePriceByTier (VNumber 50) (VArray scenarioTiers) = 9500%Q
  /\ Utils.calculatePriceByTier (VNumber 500) (VArray scenarioTiers) = 9000%Q.
Proof. repeat split; reflexivity. Qed.

(** [parseInt] on the texts a quantity field may hold. *)
Example parseInt_texts :
  Js.parseIntString "12" = Some 12
  /\ Js.parseIntString "  -5" = Some (-5)
  /\ Js.parseIntString "7.9" = Some 7
  /\ Js.parseIntString "12abc" = Some 12
  /\ Js.parseIntString "0x1A" = Some 26
  /\ Js.parseIntString "abc" = None
  /\ Js.parseIntString "" = None
  /\ Utils.parseInt (VNumber (10 ^ 21)) = Some 1.
Proof. repeat split; reflexivity. Qed.

Example default_tables_wellFormed :
  forallb (fun m => wellFormed (Machine.priceTiers m)) App.defaultMachines
  = true.
Proof. reflexivity. Qed.

Section Resolver.

Variable quantity : Z.


(** The loop returns the price of the first tier that [find] selects. *)
Lemma scanTiers_find (tiers : list Tier.t) :
  Utils.scanTiers quantity tiers
  = option_map Tier.price (find (Utils.matches quantity) tiers).
Proof.
  induction tiers as [|tier rest IH]; simpl; [reflexivity|].
  now destruct (Utils.matches quantity tier).
Qed.




(** Such a table leaves no gap: every quantity from [lo] on has a tier. *)
Lemma partitionsFrom_covers (tiers : list Tier.t) :
  forall lo,
    partitionsFrom lo tiers = true -> lo <= quantity ->
    exists tier, find (Utils.matches quantity) tiers = Some tier.
Proof.
  induction tiers as [|t rest IH]; simpl; intros lo Hwf Hlo.
  - discriminate Hwf.
  - apply andb_true_iff in Hwf as [Hmin Hrest]. apply Z.eqb_eq in Hmin.
    unfold Utils.matches at 1.
    destruct (Tier.max t) as [m|] eqn:Emax, rest as [|t' rest'];
      try discriminate Hrest.
    + apply andb_true_iff in Hrest as [_ Hrest].
      destruct (Z.leb_spec (Tier.min t) quantity) as [_|]; [|lia].
      destruct (Z.leb_spec quantity m) as [_|Hgt]; simpl; [eauto|].
      apply (IH (m + 1)); [exact Hrest | lia].
    + destruct (Z.leb_spec (Tier.min t) quantity) as [_|]; [|lia].
      simpl. eauto.
Qed.

End Resolver.

Lemma lastPrice_last (tiers : list Tier.t) (d : Tier.t) :
  tiers <> [] -> Utils.lastPrice tiers = Tier.price (last tiers d).
Proof.
  intros Hne. unfold Utils.lastPrice.
  destruct (exists_last Hne) as [front [t ->]].
  rewrite last_last, length_app, nth_error_app2 by (simpl; lia).
  simpl. now replace (List.length front + 1 - 1 - List.length front)%nat
    with 0%nat by lia.
Qed.

Lemma length_eqb_nil {A} (l : list A) :
  l <> [] -> (List.length l =? 0)%nat = false.
Proof. destruct l; [congruence | reflexivity]. Qed.

Lemma intOr_nonzero (p : option Z) (d : Z) : d <> 0 -> Js.intOr p d <> 0.
Proof.
  intros Hd. unfold Js.intOr. destruct p as [z|]; [|exact Hd].
  destruct (z =? 0) eqn:E; [exact Hd|]. now apply Z.eqb_neq.
Qed.





(** C10: when the tier list argument is not an array, or is the empty
    array, [calculatePriceByTier] returns 0 whatever the quantity. *)
Theorem calculatePriceByTier_no_tiers (quantity priceTiers : value) :
  Utils.isArray priceTiers = false \/ priceTiers = VArray [] ->
  Utils.calculatePriceByTier quantity priceTiers = 0%Q.
Proof.
  intros [H| ->]; [|reflexivity].
  destruct priceTiers; try reflexivity. discriminate H.
Qed.

Lemma calculatePriceByTier_no_tiers_witness :
  Utils.calculatePriceByTier (VNumber 5) VUndefined = 0%Q
  /\ Utils.calculatePriceByTier (VNumber 5) (VArray []) = 0%Q.
Proof.
  split.
  - apply (calculatePriceByTier_no_tiers (VNumber 5) VUndefined).
    left. reflexivity.
  - apply (calculatePriceByTier_no_tiers (VNumber 5) (VArray [])).
    right. reflexivity.
Defined.

(** ** The stand-alone resolver and the lookup of [calculatePrice] *)

(** Where the scan finds a tier whose price is not zero, the lookup inside
    [calculatePrice] yields the price the resolver returns. *)
Lemma unitPrice_agrees_on_match
    (quantity : value) (tiers : list Tier.t) (tier : Tier.t) :
  find (Utils.matches (Utils.coerceQuantity quantity)) tiers = Some tier ->
  Js.truthy (Tier.price tier) = true ->
  App.unitPrice (Utils.coerceQuantity quantity) tiers
  = Some (Utils.calculatePriceByTier quantity (VArray tiers)).
Proof.
  intros Hfind Ht. unfold App.unitPrice, Utils.calculatePriceByTier.
  rewrite Hfind, Ht, scanTiers_find, Hfind.
  destruct tiers; [discriminate Hfind | reflexivity].
Qed.

(** C9: for the quantity -5, which the quantity field accepts, and the
    tiers of the first default machine, the resolver returns the price of
    the last tier, 9000, and the lookup inside [calculatePrice] that of the
    first tier, 10000. *)
Theorem resolver_and_lookup_differ :
  Utils.coerceQuantity (VString "-5") = -5
  /\ State.quantity (App.step (App.QuantityInput "-5") scenarioState) = -5
  /\ Utils.calculatePriceByTier (VString "-5") (VArray scenarioTiers) = 9000%Q
  /\ App.unitPrice (-5) scenarioTiers = Some 10000%Q.
Proof. repeat split; reflexivity. Qed.

(** ** Coercion of the quantity *)

(** C6, as the claim states it, fails: the text -5 is taken as the quantity
    -5, by the resolver as by the quantity field. *)
Lemma coerceQuantity_negative :
  ~ (1 <= Utils.coerceQuantity (VString "-5"))
  /\ ~ (1 <= State.quantity
              (App.step (App.QuantityInput "-5") (App.initDefaultData []))).
Proof. split; vm_compute; intros H; now apply H. Qed.

(** C6, amended: the quantity used is [parseInt] of the supplied value, or 1
    when that is [NaN] or 0.  It is an integer other than zero: a value that
    parses to a positive integer gives that integer, which is at least 1; 0
    and a value that is not numeric give 1; a negative integer is kept.  The
    resolver and the quantity field coerce alike. *)
Theorem coerceQuantity_nonzero (supplied : value) :
  Utils.coerceQuantity supplied <> 0
  /\ (Utils.parseInt supplied = None -> Utils.coerceQuantity supplied = 1)
  /\ (Utils.parseInt supplied = Some 0 -> Utils.coerceQuantity supplied = 1)
  /\ (forall n, Utils.parseInt supplied = Some n -> n <> 0 ->
        Utils.coerceQuantity supplied = n)
  /\ (forall n, Utils.parseInt supplied = Some n -> 1 <= n ->
        1 <= Utils.coerceQuantity supplied)
  /\ Utils.coerceQuantity (VNumber 0) = 1
  /\ Utils.coerceQuantity (VString "abc") = 1
  /\ Utils.coerceQuantity VUndefined = 1
  /\ forall text s,
       State.quantity (App.step (App.QuantityInput text) s)
       = Utils.coerceQuantity (VString text).
Proof.
  unfold Utils.coerceQuantity.
  split; [apply intOr_nonzero; discriminate|].
  split; [now intros ->|].
  split; [now intros ->|].
  split.
  { intros n -> Hn. simpl. now apply Z.eqb_neq in Hn as ->. }
  split.
  { intros n -> Hn. simpl. destruct (n =? 0) eqn:E; lia. }
  repeat split; reflexivity.
Qed.

(** ** The quote calculator *)

(** Addition of rationals is associative, and zero is neutral, on the
    fractions themselves. *)
Lemma Qplus_assoc_eq (x y z : Q) : (x + y + z = x + (y + z))%Q.
Proof.
  destruct x as [xn xd], y as [yn yd], z as [zn zd].
  unfold Qplus; simpl. f_equal.
  - rewrite !Pos2Z.inj_mul. ring.
  - now rewrite Pos.mul_assoc.
Qed.

Lemma Qplus_0_r_eq (x : Q) : (x + 0 = x)%Q.
Proof.
  destruct x as [xn xd]. unfold Qplus; simpl. f_equal.
  - ring.
  - apply Pos.mul_1_r.
Qed.

Lemma Qplus_0_l_eq (x : Q) : (0 + x = x)%Q.
Proof.
  destruct x as [xn xd]. unfold Qplus; simpl. f_equal. ring.
Qed.

(** The loop over the selected identifiers adds up the prices of the items
    they denote. *)
Lemma fold_addPrice (catalog : list Item.t) (ids : list string) :
  forall acc,
    fold_left (App.addPrice catalog) ids acc
    = (acc + sumPrices (selectedItems catalog ids))%Q.
Proof.
  induction ids as [|id rest IH]; intros acc; simpl.
  - symmetry. apply Qplus_0_r_eq.
  - rewrite IH. unfold App.addPrice, selectedItems. simpl.
    destruct (App.findById id catalog) as [item|]; simpl.
    + apply Qplus_assoc_eq.
    + reflexivity.
Qed.

Lemma calculatePrice_returns (s : State.t) :
  hasTiers s -> exists out, App.calculatePrice s = Some out.
Proof.
  intros H. unfold App.calculatePrice, App.machinePrice.
  destruct (State.selectedMachine s) as [m|] eqn:Em; [|eauto].
  specialize (H m Em).
  assert (Hu : exists p,
             App.unitPrice (State.quantity s) (Machine.priceTiers m) = Some p).
  { unfold App.unitPrice.
    destruct (Machine.priceTiers m) as [|t0 rest]; [congruence|].
    destruct (find _ (t0 :: rest)) as [t|]; simpl; [|eauto].
    destruct (Js.truthy (Tier.price t)); eauto. }
  destruct Hu as [p ->]. eauto.
Qed.

(** Without a tier to read, [calculatePrice] throws. *)
Lemma calculatePrice_throws (s : State.t) (m : Machine.t) :
  State.selectedMachine s = Some m -> Machine.priceTiers m = [] ->
  App.calculatePrice s = None.
Proof.
  intros Em Et. unfold App.calculatePrice, App.machinePrice, App.unitPrice.
  now rewrite Em, Et.
Qed.

Lemma defaultMachines_have_tiers (m : Machine.t) :
  In m App.defaultMachines -> Machine.priceTiers m <> [].
Proof.
  intros H. repeat (destruct H as [<-|H]; [discriminate|]). contradiction.
Qed.

Lemma numOr_nonzero (p : option Q) (d : Q) :
  ~ (d == 0)%Q -> ~ (Js.numOr p d == 0)%Q.
Proof.
  intros Hd. unfold Js.numOr, Js.truthy.
  destruct p as [q|]; [|exact Hd].
  destruct (Qeq_bool q 0) eqn:E; simpl; [exact Hd|].
  now apply Qeq_bool_neq.
Qed.

Lemma invariant_init (stored : list HistoryItem.t) :
  invariant (App.initDefaultData stored).
Proof.
  repeat split; simpl; try discriminate.
Qed.

Lemma invariant_step (e : App.event) (s : State.t) :
  invariant s -> invariant (App.step e s).
Proof.
  intros H. pose proof H as (Hr & Hq & Hm).
  destruct e; simpl; try (repeat split; assumption).
  - repeat split; try assumption. simpl. apply numOr_nonzero. discriminate.
  - repeat split; try assumption. simpl. apply intOr_nonzero. discriminate.
  - repeat split; try assumption. simpl. discriminate.
  - repeat split; try assumption. simpl. discriminate.
  - unfold App.selectMachine.
    destruct (_ && _); [|exact H].
    split; [exact Hr|]. split; [exact Hq|]. intros m E.
    exact (proj1 (find_some _ App.defaultMachines E)).
  - unfold App.addHistory.
    clear Hr Hq Hm.
    destruct (State.selectedMachine s); [|exact H].
    destruct (App.calculatePrice s); exact H.
Qed.

Lemma reachable_invariant (s : State.t) : App.reachable s -> invariant s.
Proof.
  induction 1 as [stored|e s _ IH].
  - apply invariant_init.
  - now apply invariant_step.
Qed.

Lemma invariant_hasTiers (s : State.t) : invariant s -> hasTiers s.
Proof.
  intros (_ & _ & Hm) m E. apply defaultMachines_have_tiers. now apply Hm.
Qed.

Lemma scenarioState_reachable : App.reachable scenarioState.
Proof. repeat apply App.reachable_step. apply App.reachable_init. Qed.

(** What [calculatePrice] returns, when it returns. *)
Lemma calculatePrice_some (s : State.t) (out : Outcome.t) :
  App.calculatePrice s = Some out ->
  exists mp,
    App.machinePrice s = Some mp
    /\ PriceDetails.machinePrice (Outcome.details out) = mp
    /\ PriceDetails.waterCoolerPrice (Outcome.details out)
       = App.waterCoolerPrice s
    /\ PriceDetails.accessoriesPrice (Outcome.details out)
       = App.accessoriesPrice s
    /\ PriceDetails.otherAccessoriesPrice (Outcome.details out)
       = App.otherAccessoriesPrice s
    /\ PriceDetails.internationalShipping (Outcome.details out)
       = State.internationalShipping s
    /\ PriceDetails.domesticShipping (Outcome.details out)
       = State.domesticShipping s
    /\ PriceDetails.otherFees (Outcome.details out) = State.otherFees s
    /\ PriceDetails.total (Outcome.details out) = Outcome.totalPrice out
    /\ Outcome.totalPrice out
       = (mp + App.waterCoolerPrice s + App.accessoriesPrice s
          + App.otherAccessoriesPrice s + State.internationalShipping s
          + State.domesticShipping s + State.otherFees s)%Q
    /\ Outcome.usdPrice out
       = Js.divide (Outcome.totalPrice out) (State.exchangeRate s).
Proof.
  unfold App.calculatePrice. intros H.
  destruct (App.machinePrice s) as [mp|]; [|discriminate H].
  injection H as <-. exists mp. simpl. repeat split; reflexivity.
Qed.

(** C2: the total that [calculatePrice] returns, which is the total of the
    details it hands over, is the sum of the machine price, the water
    cooler price, the accessories price, the other accessories price, the
    shipping total (international plus domestic shipping) and the other
    fees, these being the amounts of the details and of the state. *)
Theorem calculatePrice_total_is_sum (s : State.t) :
  hasTiers s ->
  exists out,
    App.calculatePrice s = Some out
    /\ let d := Outcome.details out in
       Outcome.totalPrice out
       = (PriceDetails.machinePrice d + PriceDetails.waterCoolerPrice d
          + PriceDetails.accessoriesPrice d
          + PriceDetails.otherAccessoriesPrice d
          + (PriceDetails.internationalShipping d
             + PriceDetails.domesticShipping d)
          + PriceDetails.otherFees d)%Q
       /\ PriceDetails.total d = Outcome.totalPrice out
       /\ PriceDetails.internationalShipping d = State.internationalShipping s
       /\ PriceDetails.domesticShipping d = State.domesticShipping s
       /\ PriceDetails.otherFees d = State.otherFees s.
Proof.
  intros H. destruct (calculatePrice_returns s H) as [out E].
  exists out. split; [exact E|].
  destruct (calculatePrice_some s out E)
    as (mp & _ & Hm & Hw & Ha & Ho & Hi & Hd & Hf & Ht & Hsum & _).
  cbv zeta. rewrite Hm, Hw, Ha, Ho, Hi, Hd, Hf, Ht, Hsum.
  repeat split. f_equal. apply Qplus_assoc_eq.
Qed.

Lemma calculatePrice_total_is_sum_witness :
  exists out,
    App.calculatePrice scenarioState = Some out
    /\ Outcome.totalPrice out = 12650%Q
    /\ PriceDetails.machinePrice (Outcome.details out) = 10000%Q
    /\ PriceDetails.waterCoolerPrice (Outcome.details out) = 800%Q
    /\ PriceDetails.accessoriesPrice (Outcome.details out) = 1500%Q.
Proof.
  assert (H : hasTiers scenarioState).
  { intros m E. vm_compute in E. injection E as <-. discriminate. }
  destruct (calculatePrice_total_is_sum scenarioState H) as (out & E & _).
  exists out. split; [exact E|].
  vm_compute in E. injection E as <-. repeat split; reflexivity.
Defined.

(** The components as [calculatePrice] computes them: the machine price is
    the unit price of its own tier lookup times the quantity, the price of
    the first matching tier where that is not zero, and 0 without a machine;
    the water cooler price is the flat price of the selected water cooler
    times the quantity, and 0 when none is selected or the selection names
    none; the accessories price and the other accessories price are the
    plain sums of the flat prices of the selected items, whatever the
    quantity. *)
Lemma calculatePrice_components (s : State.t) :
  hasTiers s ->
  exists out,
    App.calculatePrice s = Some out
    /\ let d := Outcome.details out in
       let quantity := inject_Z (State.quantity s) in
       (State.selectedMachine s = None -> PriceDetails.machinePrice d = 0%Q)
       /\ (forall m, State.selectedMachine s = Some m ->
             exists price,
               App.unitPrice (State.quantity s) (Machine.priceTiers m)
               = Some price
               /\ PriceDetails.machinePrice d = (price * quantity)%Q)
       /\ (forall m tier,
             State.selectedMachine s = Some m ->
             find (Utils.matches (State.quantity s)) (Machine.priceTiers m)
             = Some tier ->
             Js.truthy (Tier.price tier) = true ->
             PriceDetails.machinePrice d = (Tier.price tier * quantity)%Q)
       /\ (State.selectedWaterCooler s = None ->
           PriceDetails.waterCoolerPrice d = 0%Q)
       /\ (forall id, State.selectedWaterCooler s = Some id ->
             App.findById id App.defaultWaterCoolers = None ->
             PriceDetails.waterCoolerPrice d = 0%Q)
       /\ (forall waterCooler,
             In waterCooler App.defaultWaterCoolers ->
             State.selectedWaterCooler s = Some (Item.id waterCooler) ->
             PriceDetails.waterCoolerPrice d
             = (Item.price waterCooler * quantity)%Q)
       /\ PriceDetails.accessoriesPrice d
          = sumPrices (selectedItems App.defaultAccessories
                         (State.selectedAccessories s))
       /\ PriceDetails.otherAccessoriesPrice d
          = sumPrices (selectedItems App.defaultOtherAccessories
                         (State.selectedOtherAccessories s))
       /\ forall quantity' out',
            App.calculatePrice (State.setQuantity quantity' s) = Some out' ->
            PriceDetails.accessoriesPrice (Outcome.details out')
            = PriceDetails.accessoriesPrice d
            /\ PriceDetails.otherAccessoriesPrice (Outcome.details out')
               = PriceDetails.otherAccessoriesPrice d.
Proof.
  intros H. destruct (calculatePrice_returns s H) as [out E].
  exists out. split; [exact E|].
  destruct (calculatePrice_some s out E)
    as (mp & Hmp & Hm & Hw & Ha & Ho & _).
  cbv zeta. rewrite Hm, Hw, Ha, Ho. clear Hm Hw Ha Ho.
  unfold App.machinePrice in Hmp.
  split; [|split; [|split]].
  - intros En. rewrite En in Hmp. now injection Hmp as <-.
  - intros m Em. rewrite Em in Hmp.
    destruct (App.unitPrice _ _) as [price|]; [|discriminate Hmp].
    exists price. split; [reflexivity|]. now injection Hmp as <-.
  - intros m tier Em Hfind Ht. rewrite Em in Hmp.
    unfold App.unitPrice in Hmp. rewrite Hfind, Ht in Hmp.
    now injection Hmp as <-.
  - unfold App.waterCoolerPrice.
    split; [|split; [|split; [|split; [|split]]]].
    + now intros ->.
    + intros id -> ->. now destruct (String.eqb id "").
    + intros wc Hin ->.
      repeat (destruct Hin as [<-|Hin]; [reflexivity|]). contradiction.
    + unfold App.accessoriesPrice. rewrite fold_addPrice.
      apply Qplus_0_l_eq.
    + unfold App.otherAccessoriesPrice. rewrite fold_addPrice.
      apply Qplus_0_l_eq.
    + intros q' out' E'.
      destruct (calculatePrice_some _ out' E')
        as (mp' & _ & _ & _ & Ha' & Ho' & _).
      rewrite Ha', Ho'. split; reflexivity.
Qed.

(** C3: with the first default machine, its water cooler and the laser tube
    selected, -5 is typed into the quantity field; the page reaches this
    state.  The resolver's unit price for the quantity is 9000, the price of
    the last tier, so the machine price of the claim is -45000;
    [calculatePrice] gives -50000, the price of the first tier times the
    quantity, and a total that is 5000 lower.  The water cooler price, the
    flat price 800 times the quantity, and the accessories prices, plain
    sums that the quantity does not scale, are those of the claim.  With 50
    typed instead, a quantity of the second tier, the machine price is the
    resolver's price 9500 times 50, as the claim has it. *)
Theorem machinePrice_is_not_the_resolved_price :
  let s := App.step (App.QuantityInput "-5") scenarioState in
  App.reachable s
  /\ State.quantity s = Utils.coerceQuantity (VString "-5")
  /\ State.quantity s = -5
  /\ State.selectedMachine s
     = Some (Machine.mk "kh-1390-50w" "KH-1390" "1390" "50W" scenarioTiers)
  /\ Utils.calculatePriceByTier (VString "-5") (VArray scenarioTiers)
     = 9000%Q
  /\ exists out,
       App.calculatePrice s = Some out
       /\ let d := Outcome.details out in
          let resolved :=
            (Utils.calculatePriceByTier (VString "-5") (VArray scenarioTiers)
             * inject_Z (State.quantity s))%Q in
          (resolved == -45000)%Q
          /\ (PriceDetails.machinePrice d == -50000)%Q
          /\ ~ (PriceDetails.machinePrice d == resolved)%Q
          /\ (PriceDetails.waterCoolerPrice d
              == 800 * inject_Z (State.quantity s))%Q
          /\ (PriceDetails.accessoriesPrice d == 1500)%Q
          /\ (PriceDetails.otherAccessoriesPrice d == 0)%Q
          /\ (Outcome.totalPrice out == -52150)%Q
          /\ exists out',
               App.calculatePrice
                 (App.step (App.QuantityInput "50") scenarioState)
               = Some out'
               /\ Utils.calculatePriceByTier (VString "50")
                    (VArray scenarioTiers)
                  = 9500%Q
               /\ (PriceDetails.machinePrice (Outcome.details out')
                   == Utils.calculatePriceByTier (VString "50")
                        (VArray scenarioTiers) * 50)%Q
               /\ (PriceDetails.accessoriesPrice (Outcome.details out')
                   == 1500)%Q.
Proof.
  cbv zeta. split; [apply App.reachable_step, scenarioState_reachable|].
  do 4 (split; [reflexivity|]).
  eexists. split; [reflexivity|].
  split; [reflexivity|]. split; [reflexivity|].
  split; [intros H; discriminate H|].
  do 4 (split; [reflexivity|]).
  eexists. split; [reflexivity|]. repeat split; reflexivity.
Qed.

(** ** The exchange rate *)

Lemma Qmake_hundredth (n : Z) : (n # 100 == inject_Z n * (1 # 100))%Q.
Proof. unfold Qeq, inject_Z; simpl. ring. Qed.

(** The value shown with two decimals is within half a hundredth of the
    value itself. *)
Lemma fixed2Value_close (x : Q) : (Qabs (Js.fixed2Value x - x) <= 1 # 200)%Q.
Proof.
  unfold Js.fixed2Value, Js.hundredths.
  set (y := (Qabs x * 100 + (1 # 2))%Q).
  pose proof (Qfloor_le y) as Hlo.
  pose proof (Qlt_floor y) as Hhi.
  rewrite inject_Z_plus in Hhi. change (inject_Z 1) with 1%Q in Hhi.
  apply Qabs_Qle_condition.
  destruct (Qle_bool 0 x) eqn:E; rewrite Qmake_hundredth;
    set (a := inject_Z (Qfloor y)) in *; subst y.
  - apply Qle_bool_iff in E. rewrite (Qabs_pos x E) in Hlo, Hhi.
    split; lra.
  - assert (Hneg : (x <= 0)%Q).
    { apply Qnot_lt_le. intros Hlt. apply Qlt_le_weak in Hlt.
      apply Qle_bool_iff in Hlt. congruence. }
    rewrite (Qabs_neg x Hneg) in Hlo, Hhi.
    split; lra.
Qed.

Lemma divide_some (a b : Q) :
  ~ (b == 0)%Q -> Js.divide a b = Some (a / b)%Q.
Proof.
  intros Hb. unfold Js.divide.
  destruct (Qeq_bool b 0) eqn:E; [|reflexivity].
  now apply Qeq_bool_iff in E.
Qed.

(** C7: in every state the page can be in, [calculatePrice] computes a
    dollar price, which is the total divided by the exchange rate; times the
    exchange rate it is the total, exactly; and as shown with two decimals,
    times the exchange rate, it is within half a hundredth of the rate's
    magnitude of the total. *)
Theorem usdPrice_times_rate (s : State.t) :
  App.reachable s ->
  exists out usd,
    App.calculatePrice s = Some out
    /\ Outcome.usdPrice out = Some usd
    /\ usd = (Outcome.totalPrice out / State.exchangeRate s)%Q
    /\ (usd * State.exchangeRate s == Outcome.totalPrice out)%Q
    /\ (Qabs (Js.fixed2Value usd * State.exchangeRate s
              - Outcome.totalPrice out)
        <= Qabs (State.exchangeRate s) * (1 # 200))%Q.
Proof.
  intros Hr. apply reachable_invariant in Hr.
  pose proof Hr as (Hrate & _).
  destruct (calculatePrice_returns s (invariant_hasTiers s Hr)) as [out E].
  destruct (calculatePrice_some s out E)
    as (mp & _ & _ & _ & _ & _ & _ & _ & _ & _ & _ & Husd).
  rewrite (divide_some _ _ Hrate) in Husd.
  exists out, (Outcome.totalPrice out / State.exchangeRate s)%Q.
  split; [exact E|]. split; [exact Husd|]. split; [reflexivity|].
  set (total := Outcome.totalPrice out). set (rate := State.exchangeRate s) in *.
  assert (Hexact : (total / rate * rate == total)%Q) by (field; exact Hrate).
  split; [exact Hexact|].
  assert (Hd : (Js.fixed2Value (total / rate) * rate - total
                == (Js.fixed2Value (total / rate) - total / rate) * rate)%Q).
  { generalize (Js.fixed2Value (total / rate)). intros shown.
    field. exact Hrate. }
  rewrite Hd, Qabs_Qmult, (Qmult_comm (Qabs rate)).
  apply Qmult_le_compat_r; [apply fixed2Value_close | apply Qabs_nonneg].
Qed.

Lemma usdPrice_times_rate_witness :
  exists out usd,
    App.calculatePrice scenarioState = Some out
    /\ Outcome.usdPrice out = Some usd
    /\ (usd * (65 # 10) == 12650)%Q
    /\ Js.toFixed2 usd = "1946.15"%string.
Proof.
  destruct (usdPrice_times_rate scenarioState) as (out & usd & E & U & D & M & _).
  - repeat apply App.reachable_step. apply App.reachable_init.
  - exists out, usd. split; [exact E|]. split; [exact U|].
    vm_compute in E. injection E as <-.
    split; [exact M|]. rewrite D. reflexivity.
Defined.

(** C5, as the claim states it, fails: the negative rate -2 is not replaced
    by 6.5 but used, and the dollar price of the scenario's total of 12650
    is then negative. *)
Lemma exchangeRate_negative_kept :
  let s := App.step (App.ExchangeRateInput (Some (-2)%Q)) scenarioState in
  ~ (State.exchangeRate s == 65 # 10)%Q
  /\ exists out usd,
       App.calculatePrice s = Some out
       /\ Outcome.totalPrice out = 12650%Q
       /\ Outcome.usdPrice out = Some usd
       /\ (usd == -6325)%Q
       /\ (usd < 0)%Q.
Proof.
  split; [discriminate|].
  eexists. eexists. split; [reflexivity|].
  split; [reflexivity|]. split; [reflexivity|]. split; reflexivity.
Qed.

(** C5, amended: a supplied rate that parses to zero or is not numeric is
    replaced by 6.5 and any other is used as it is, a negative one too; the
    rate used is therefore never zero, the dollar price is never the result
    of a division by zero, and under a positive rate it is not negative
    unless the total is. *)
Theorem exchangeRate_defaulted (parsed : option Q) (s : State.t) :
  let s' := App.step (App.ExchangeRateInput parsed) s in
  ~ (State.exchangeRate s' == 0)%Q
  /\ (parsed = None -> State.exchangeRate s' = 65 # 10)
  /\ (forall q, parsed = Some q -> (q == 0)%Q ->
        State.exchangeRate s' = 65 # 10)
  /\ (forall q, parsed = Some q -> ~ (q == 0)%Q -> State.exchangeRate s' = q)
  /\ (forall out, App.calculatePrice s' = Some out ->
        Outcome.usdPrice out
        = Some (Outcome.totalPrice out / State.exchangeRate s')%Q)
  /\ (forall out usd,
        App.calculatePrice s' = Some out -> Outcome.usdPrice out = Some usd ->
        (0 < State.exchangeRate s')%Q -> (0 <= Outcome.totalPrice out)%Q ->
        (0 <= usd)%Q).
Proof.
  cbv zeta.
  assert (Hnz : ~ (State.exchangeRate
                     (App.step (App.ExchangeRateInput parsed) s) == 0)%Q).
  { simpl. apply numOr_nonzero. discriminate. }
  assert (Husd : forall out,
             App.calculatePrice (App.step (App.ExchangeRateInput parsed) s)
             = Some out ->
             Outcome.usdPrice out
             = Some (Outcome.totalPrice out
                     / State.exchangeRate
                         (App.step (App.ExchangeRateInput parsed) s))%Q).
  { intros out E.
    destruct (calculatePrice_some _ out E)
      as (mp & _ & _ & _ & _ & _ & _ & _ & _ & _ & _ & Hu).
    now rewrite Hu, (divide_some _ _ Hnz). }
  split; [exact Hnz|].
  split; [now intros ->|].
  split.
  { intros q -> Hq. simpl. unfold Js.truthy.
    apply Qeq_bool_iff in Hq. now rewrite Hq. }
  split.
  { intros q -> Hq. simpl. unfold Js.truthy.
    destruct (Qeq_bool q 0) eqn:E; [|reflexivity].
    now apply Qeq_bool_iff in E. }
  split; [exact Husd|].
  intros out usd E U Hpos Htot.
  rewrite (Husd out E) in U. injection U as <-.
  apply Qle_shift_div_l; [exact Hpos|]. now rewrite Qmult_0_l.
Qed.

(** ** The history *)

Lemma addHistory_without_machine (newId now : string) (s : State.t) :
  State.selectedMachine s = None -> App.addHistory newId now s = Some s.
Proof. intros E. unfold App.addHistory. now rewrite E. Qed.

(** C8: with a machine selected, so that there is an entry to add,
    [addHistory] puts the new entry in front of the list and keeps the rest
    as it was; adding the same entry again puts it in front once more; on
    the empty history the result is the entry alone, and on a history of one
    entry the new entry followed by that one. *)
Theorem addHistory_prepends
    (newId now : string) (s : State.t) (m : Machine.t) :
  State.selectedMachine s = Some m ->
  Machine.priceTiers m <> [] ->
  exists out s',
    App.calculatePrice s = Some out
    /\ App.addHistory newId now s = Some s'
    /\ let entry :=
         App.historyItem newId now m (State.quantity s)
           (Outcome.totalPrice out) in
       State.history s' = entry :: State.history s
       /\ (exists s'',
             App.addHistory newId now s' = Some s''
             /\ State.history s'' = entry :: entry :: State.history s)
       /\ (State.history s = [] -> State.history s' = [entry])
       /\ (forall e1, State.history s = [e1] ->
             State.history s' = [entry; e1]).
Proof.
  intros Em Hne.
  assert (H : hasTiers s).
  { intros m' E'. rewrite Em in E'. now injection E' as <-. }
  destruct (calculatePrice_returns s H) as [out E].
  exists out. eexists. split; [exact E|].
  unfold App.addHistory. rewrite Em, E.
  split; [reflexivity|]. cbv zeta.
  split; [reflexivity|]. split.
  - eexists.
    change (App.calculatePrice (State.setHistory _ s))
      with (App.calculatePrice s).
    cbn [State.selectedMachine State.setHistory].
    rewrite Em, E. split; reflexivity.
  - cbn [State.history State.setHistory].
    split; [now intros ->|]. now intros e1 ->.
Qed.

Lemma addHistory_prepends_witness :
  exists s',
    App.addHistory "id2" "now" scenarioState = Some s'
    /\ State.history s'
       = [ HistoryItem.mk "id2" "now" (App.yen ++ "12650.00")
             ("KH-1390 1390 50W " ++ App.times ++ " 1") ].
Proof.
  destruct (addHistory_prepends "id2" "now" scenarioState
              (Machine.mk "kh-1390-50w" "KH-1390" "1390" "50W" scenarioTiers))
    as (out & s' & E & A & Hh & _).
  - reflexivity.
  - discriminate.
  - exists s'. split; [exact A|].
    vm_compute in E. injection E as <-. exact Hh.
Defined.

(** ** The calculator and the resolver on the default machines *)

Lemma defaultMachines_tables (m : Machine.t) :
  In m App.defaultMachines ->
  wellFormed (Machine.priceTiers m) = true
  /\ forallb (fun tier => Js.truthy (Tier.price tier)) (Machine.priceTiers m)
     = true.
Proof.
  intros H. repeat (destruct H as [<-|H]; [split; reflexivity|]).
  contradiction.
Qed.

(** For a quantity of 1 or more, the machine price of a reachable state is
    the price the resolver returns for that quantity, times the quantity. *)
Lemma machinePrice_by_resolver
    (s : State.t) (m : Machine.t) (quantity : value) :
  App.reachable s ->
  State.selectedMachine s = Some m ->
  1 <= State.quantity s ->
  Utils.coerceQuantity quantity = State.quantity s ->
  App.machinePrice s
  = Some (Utils.calculatePriceByTier quantity (VArray (Machine.priceTiers m))
          * inject_Z (State.quantity s))%Q.
Proof.
  intros Hr Em Hq Hc. apply reachable_invariant in Hr as (_ & _ & Hm).
  destruct (defaultMachines_tables m (Hm m Em)) as [Hwf Hp].
  destruct (partitionsFrom_covers (State.quantity s) _ 1 Hwf Hq)
    as [tier Hfind].
  assert (Ht : Js.truthy (Tier.price tier) = true).
  { rewrite forallb_forall in Hp. apply Hp.
    now apply find_some in Hfind as [Hin _]. }
  unfold App.machinePrice. rewrite Em, <- Hc.
  rewrite <- Hc in Hfind.
  now rewrite (unitPrice_agrees_on_match quantity _ tier Hfind Ht).
Qed.

(** ** Further scenarios of the specification *)

(** No machine, quantity 1, the laser tube alone: the total is its price. *)
Example scenario_accessory_only :
  option_map Outcome.totalPrice
    (App.calculatePrice
       (App.step (App.AccessoryChange ["accessory-laser-tube"%string])
          (App.initDefaultData [])))
  = Some 1500%Q.
Proof. reflexivity. Qed.

(** An exchange rate supplied as 0 is replaced by 6.5. *)
Example scenario_rate_zero :
  State.exchangeRate (App.step (App.ExchangeRateInput (Some 0%Q)) scenarioState)
  = 65 # 10.
Proof. reflexivity. Qed.

(** ** Numerals: printing and reading back *)

Lemma readDigits_step (c : ascii) (k : Z) (r : string) (a : Z) :
  Js.digitValue c = Some k -> (k <? 10) = true ->
  Js.readDigits 10 (String c r) (Some a)
  = Js.readDigits 10 r (Some (10 * a + k)).
Proof. intros Hc Hk. cbn [Js.readDigits]. now rewrite Hc, Hk. Qed.

Ltac digit_value :=
  match goal with
  | |- context [Z.of_N (N_of_ascii ?c) - 48] =>
      let v := eval vm_compute in (Z.of_N (N_of_ascii c) - 48) in
      change (Z.of_N (N_of_ascii c) - 48) with v
  end.

Lemma readDigits_acc (d : Decimal.uint) :
  forall p,
    Js.readDigits 10 (NilEmpty.string_of_uint d) (Some (Z.pos p))
    = Some (Z.pos (Pos.of_uint_acc d p)).
Proof.
  induction d; intros p; cbn [NilEmpty.string_of_uint Pos.of_uint_acc];
    [reflexivity|..];
    erewrite readDigits_step by reflexivity;
    rewrite <- IHd; do 2 f_equal; digit_value; lia.
Qed.

Lemma readDigits_uint (d : Decimal.uint) :
  Js.readDigits 10 (NilEmpty.string_of_uint d) (Some 0)
  = Some (Z.of_N (Pos.of_uint d)).
Proof.
  induction d; cbn [NilEmpty.string_of_uint Pos.of_uint];
    [reflexivity|..];
    erewrite readDigits_step by reflexivity; digit_value;
    [exact IHd | apply (readDigits_acc d)..].
Qed.

Lemma string_of_uint_digits (d : Decimal.uint) :
  allDigits (NilEmpty.string_of_uint d) = true.
Proof. induction d; simpl; auto. Qed.

(** Case analysis on a character known to be a digit. *)
Ltac digit_cases c H :=
  destruct c as [[|] [|] [|] [|] [|] [|] [|] [|]];
  try (vm_compute in H; discriminate H); clear H.

Lemma option_map_mul_1 (o : option Z) : option_map (Z.mul 1) o = o.
Proof. destruct o as [z|]; [|reflexivity]. simpl. now destruct z. Qed.

(** On a numeral [parseInt] skips nothing, finds no sign and no [0x], and
    reads the digits. *)
Lemma parseIntString_digits (c : ascii) (r : string) :
  Tools.isDigit c = true -> allDigits r = true ->
  Js.parseIntString (String c r) = Js.readDigits 10 (String c r) (Some 0).
Proof.
  intros Hc Hr. unfold Js.parseIntString.
  digit_cases c Hc; try (cbn; apply option_map_mul_1).
  destruct r as [|c2 r2]; [reflexivity|].
  apply andb_true_iff in Hr as [Hc2 _].
  digit_cases c2 Hc2; cbn; apply option_map_mul_1.
Qed.

Lemma parseIntString_minus_digits (c : ascii) (r : string) :
  Tools.isDigit c = true -> allDigits r = true ->
  Js.parseIntString (String "-" (String c r))
  = option_map Z.opp (Js.readDigits 10 (String c r) (Some 0)).
Proof.
  assert (Hopp : forall o, option_map (Z.mul (-1)) o = option_map Z.opp o).
  { intros [z|]; [|reflexivity]. simpl. now destruct z. }
  intros Hc Hr. unfold Js.parseIntString.
  digit_cases c Hc; try (cbn; apply Hopp).
  destruct r as [|c2 r2]; [reflexivity|].
  apply andb_true_iff in Hr as [Hc2 _].
  digit_cases c2 Hc2; cbn; apply Hopp.
Qed.

Lemma decimal_uint (p : positive) :
  Js.decimal (Z.pos p) = NilEmpty.string_of_uint (Pos.to_uint p).
Proof.
  unfold Js.decimal. cbn [Z.to_int NilZero.string_of_int].
  unfold NilZero.string_of_uint.
  pose proof (DecimalPos.Unsigned.to_uint_nonnil p) as Hn.
  now destruct (Pos.to_uint p).
Qed.

Lemma decimal_shape (n : Z) :
  0 <= n ->
  exists c r,
    Js.decimal n = String c r /\ Tools.isDigit c = true
    /\ allDigits r = true
    /\ Js.readDigits 10 (String c r) (Some 0) = Some n.
Proof.
  intros Hn. destruct n as [|p|p]; [| |lia].
  - exists "0"%char, EmptyString. repeat split; reflexivity.
  - rewrite decimal_uint.
    pose proof (string_of_uint_digits (Pos.to_uint p)) as Hd.
    pose proof (readDigits_uint (Pos.to_uint p)) as Hv.
    rewrite DecimalPos.Unsigned.of_to in Hv.
    pose proof (DecimalPos.Unsigned.to_uint_nonnil p) as Hnil.
    destruct (NilEmpty.string_of_uint (Pos.to_uint p)) as [|c r] eqn:E.
    + destruct (Pos.to_uint p); try discriminate E. congruence.
    + apply andb_true_iff in Hd as [Hc Hr]. exists c, r. now repeat split.
Qed.

(** Reading back the numeral of an integer that is not negative gives the
    integer. *)
Lemma parseIntString_decimal (n : Z) :
  0 <= n -> Js.parseIntString (Js.decimal n) = Some n.
Proof.
  intros Hn. destruct (decimal_shape n Hn) as (c & r & -> & Hc & Hr & Hv).
  now rewrite parseIntString_digits.
Qed.

(** X1: an integer other than zero and of magnitude 2^53 at most, the range
    in which every integer is a number of the page and [parseInt] returns
    the integer it reads, is the quantity that is used, be it handed to the
    resolver as a number or typed into the quantity field as its numeral. *)
Theorem quantity_numeral_round_trip (z : Z) :
  z <> 0 -> Z.abs z <= 2 ^ 53 ->
  Utils.parseInt (VNumber z) = Some z
  /\ Utils.coerceQuantity (VNumber z) = z
  /\ Utils.coerceQuantity (VString (Js.numberToString z)) = z
  /\ forall s,
       State.quantity (App.step (App.QuantityInput (Js.numberToString z)) s)
       = z.
Proof.
  intros Hz Hb.
  assert (Hb' : Z.abs z < 10 ^ 21).
  { change (2 ^ 53) with 9007199254740992 in Hb.
    change (10 ^ 21) with 1000000000000000000000. lia. }
  clear Hb. rename Hb' into Hb.
  assert (E : Js.parseIntString (Js.numberToString z) = Some z).
  { unfold Js.numberToString.
    apply Z.ltb_lt in Hb. rewrite Hb.
    destruct (Z.ltb_spec z 0) as [Hneg|Hpos].
    - destruct (decimal_shape (Z.abs z) (Z.abs_nonneg z))
        as (c & r & -> & Hc & Hr & Hv).
      cbn [append]. rewrite parseIntString_minus_digits, Hv by assumption.
      simpl. f_equal. lia.
    - cbn [append]. rewrite parseIntString_decimal by lia. f_equal. lia. }
  assert (C : Js.intOr (Some z) 1 = z).
  { simpl. now apply Z.eqb_neq in Hz as ->. }
  unfold Utils.coerceQuantity, Utils.parseInt. cbn [Utils.toString App.step].
  rewrite E. repeat split; try exact C. intros s. exact C.
Qed.

Lemma quantity_numeral_round_trip_witness :
  Utils.coerceQuantity (VNumber (-12345)) = -12345.
Proof.
  apply (quantity_numeral_round_trip (-12345));
    [discriminate | vm_compute; discriminate].
Defined.

(** ** [extractPowerFromString] *)

Lemma isDigit_value (c : ascii) :
  Tools.isDigit c = true ->
  exists k, Js.digitValue c = Some k /\ 0 <= k < 10.
Proof.
  intros H. digit_cases c H; eexists; (split; [vm_compute; reflexivity | lia]).
Qed.

Lemma readDigits_nonneg (s : string) :
  forall a,
    allDigits s = true -> 0 <= a ->
    exists n, Js.readDigits 10 s (Some a) = Some n /\ 0 <= n.
Proof.
  induction s as [|c r IH]; intros a Hs Ha.
  - exists a. now split.
  - apply andb_true_iff in Hs as [Hc Hr].
    destruct (isDigit_value c Hc) as (k & Hk & Hb).
    rewrite (readDigits_step c k) by (assumption || (apply Z.ltb_lt; lia)).
    apply IH; [assumption | lia].
Qed.

(** Digits read after [a]: the result starts with [a] and has as many more
    digits as were read. *)
Lemma readDigits_bounds (s : string) :
  forall a,
    allDigits s = true -> 0 <= a ->
    exists n,
      Js.readDigits 10 s (Some a) = Some n
      /\ a * 10 ^ Z.of_nat (String.length s) <= n
         < (a + 1) * 10 ^ Z.of_nat (String.length s).
Proof.
  induction s as [|c r IH]; intros a Hs Ha.
  - exists a. split; [reflexivity|]. simpl. lia.
  - apply andb_true_iff in Hs as [Hc Hr].
    destruct (isDigit_value c Hc) as (k & Hk & Hb).
    rewrite (readDigits_step c k) by (assumption || (apply Z.ltb_lt; lia)).
    destruct (IH (10 * a + k) Hr) as (n & E & Hn); [lia|].
    exists n. split; [exact E|].
    cbn [String.length]. rewrite Nat2Z.inj_succ, Z.pow_succ_r by lia.
    assert (0 < 10 ^ Z.of_nat (String.length r)) by (apply Z.pow_pos_nonneg; lia).
    nia.
Qed.

Lemma digitRun_digits (s : string) : allDigits (Tools.digitRun s) = true.
Proof.
  induction s as [|c r IH]; simpl; [reflexivity|].
  destruct (Tools.isDigit c) eqn:E; simpl; [now rewrite E|reflexivity].
Qed.

Lemma digitRun_app (ds rest : string) :
  allDigits ds = true -> startsWithDigit rest = false ->
  Tools.digitRun (ds ++ rest) = ds.
Proof.
  intros Hd Hr. induction ds as [|c r IH]; simpl.
  - destruct rest as [|c r]; [reflexivity|]. simpl in *. now rewrite Hr.
  - simpl in Hd. apply andb_true_iff in Hd as [Hc Hd].
    now rewrite Hc, IH.
Qed.

Lemma matchDigits_skip (prefix s : string) :
  noDigit prefix = true ->
  Tools.matchDigits (prefix ++ s) = Tools.matchDigits s.
Proof.
  induction prefix as [|c r IH]; simpl; intros H; [reflexivity|].
  apply andb_true_iff in H as [Hc Hr].
  apply negb_true_iff in Hc. rewrite Hc. now apply IH.
Qed.

Lemma matchDigits_none (s : string) :
  noDigit s = true -> Tools.matchDigits s = None.
Proof.
  induction s as [|c r IH]; simpl; intros H; [reflexivity|].
  apply andb_true_iff in H as [Hc Hr].
  apply negb_true_iff in Hc. rewrite Hc. now apply IH.
Qed.

Lemma matchDigits_shape (s m : string) :
  Tools.matchDigits s = Some m ->
  exists c r, m = String c r /\ Tools.isDigit c = true /\ allDigits r = true.
Proof.
  induction s as [|c r IH]; simpl; intros H; [discriminate H|].
  destruct (Tools.isDigit c) eqn:E; [|now apply IH].
  injection H as <-. exists c, (Tools.digitRun r).
  repeat split; [exact E | apply digitRun_digits].
Qed.

Lemma digitRun_length (s : string) :
  (String.length (Tools.digitRun s) <= String.length s)%nat.
Proof.
  induction s as [|c r IH]; simpl; [lia|].
  destruct (Tools.isDigit c); simpl; lia.
Qed.

Lemma matchDigits_length (s m : string) :
  Tools.matchDigits s = Some m -> (String.length m <= String.length s)%nat.
Proof.
  revert m. induction s as [|c r IH]; intros m H; [discriminate H|].
  cbn [Tools.matchDigits] in H. destruct (Tools.isDigit c).
  - injection H as <-. apply (digitRun_length (String c r)).
  - apply IH in H. simpl. lia.
Qed.

(** X2: for an argument that is not a string, and for a string of at most
    fifteen characters, whose digits [parseInt] reads without rounding,
    [extractPowerFromString] returns an integer from 0 to 10^15 - 1, never
    a negative number and never [NaN]; it returns 0 for an argument that is
    not a string and for a string without a digit, whatever its length. *)
Theorem extractPowerFromString_nonneg (powerString : value) :
  ((forall s, powerString = VString s -> (String.length s <= 15)%nat) ->
   exists n,
     Tools.extractPowerFromString powerString = Some n /\ 0 <= n < 10 ^ 15)
  /\ ((forall s, powerString <> VString s) ->
      Tools.extractPowerFromString powerString = Some 0)
  /\ (forall s, powerString = VString s -> noDigit s = true ->
        Tools.extractPowerFromString powerString = Some 0).
Proof.
  assert (Hz : 0 <= 0 < 10 ^ 15) by (split; [lia | reflexivity]).
  split; [|split].
  - intros Hlen. destruct powerString; try (exists 0; now split).
    specialize (Hlen s eq_refl).
    unfold Tools.extractPowerFromString.
    destruct (String.eqb s ""); [exists 0; now split|].
    destruct (Tools.matchDigits s) as [m|] eqn:E; [|exists 0; now split].
    pose proof (matchDigits_length s m E) as Hm.
    destruct (matchDigits_shape s m E) as (c & r & -> & Hc & Hr).
    rewrite parseIntString_digits by assumption.
    destruct (readDigits_bounds (String c r) 0) as (n & En & Hn);
      [simpl; now rewrite Hc | lia |].
    exists n. split; [exact En|]. split; [lia|].
    apply Z.lt_le_trans with (1 := proj2 Hn).
    rewrite Z.mul_1_l. apply Z.pow_le_mono_r; lia.
  - intros H. destruct powerString; try reflexivity. now destruct (H s).
  - intros s -> Hs. unfold Tools.extractPowerFromString.
    destruct (String.eqb s ""); [reflexivity|].
    now rewrite (matchDigits_none s Hs).
Qed.

(** X3: where the first digits of a string are the numeral of an integer
    from 0 to 2^53, which [parseInt] reads without rounding, with no digit
    before it and no digit right after it, [extractPowerFromString] returns
    that integer; a sign in front of the numeral is not read. *)
Theorem extractPowerFromString_numeral (n : Z) (prefix suffix : string) :
  0 <= n <= 2 ^ 53 ->
  noDigit prefix = true -> startsWithDigit suffix = false ->
  Tools.extractPowerFromString (VString (prefix ++ Js.decimal n ++ suffix))
  = Some n.
Proof.
  intros [Hn _] Hp Hs. unfold Tools.extractPowerFromString.
  rewrite (matchDigits_skip prefix _ Hp).
  destruct (decimal_shape n Hn) as (c & r & E & Hc & Hr & Hv).
  rewrite E.
  assert (Hne : String.eqb (prefix ++ String c r ++ suffix) "" = false).
  { destruct prefix; reflexivity. }
  rewrite Hne. cbn [append Tools.matchDigits]. rewrite Hc.
  change (String c (r ++ suffix)) with (String c r ++ suffix)%string.
  rewrite digitRun_app; [|simpl; now rewrite Hc|exact Hs].
  now rewrite parseIntString_digits.
Qed.

Lemma extractPowerFromString_numeral_witness :
  Tools.extractPowerFromString (VString "-50W") = Some 50.
Proof.
  apply (extractPowerFromString_numeral 50 "-" "W");
    [split; vm_compute; discriminate | reflexivity..].
Defined.

(** ** [parseNumber] and the volume formulas *)

(** X4: [parseNumber] and the [parseFloat(...) || default] of the listeners
    give the same number unless the text parses to zero, which [parseNumber]
    keeps and [||] replaces by the default; with the default 0 of the three
    fee fields the two never differ in value. *)
Theorem parseNumber_or_default (parsed : option Q) (defaultValue : Q) :
  (Js.numOr parsed defaultValue = Tools.parseNumber parsed defaultValue
   \/ exists q,
        parsed = Some q /\ (q == 0)%Q
        /\ Tools.parseNumber parsed defaultValue = q
        /\ Js.numOr parsed defaultValue = defaultValue)
  /\ (Js.numOr parsed 0 == Tools.parseNumber parsed 0)%Q
  /\ forall s,
       (State.otherFees (App.step (App.OtherFeesInput parsed) s)
        == Tools.parseNumber parsed 0)%Q.
Proof.
  assert (H0 : (Js.numOr parsed 0 == Tools.parseNumber parsed 0)%Q).
  { destruct parsed as [q|]; simpl; [|reflexivity].
    unfold Js.truthy. destruct (Qeq_bool q 0) eqn:E; simpl; [|reflexivity].
    apply Qeq_bool_iff in E. now rewrite E. }
  split; [|split; [exact H0 | intros s; exact H0]].
  destruct parsed as [q|]; simpl; [|now left].
  unfold Js.truthy. destruct (Qeq_bool q 0) eqn:E; simpl; [|now left].
  right. exists q. apply Qeq_bool_iff in E. now repeat split.
Qed.

Lemma truthy_nonzero (q : Q) : Js.truthy q = true <-> ~ (q == 0)%Q.
Proof.
  unfold Js.truthy. rewrite negb_true_iff. split.
  - intros H. now apply Qeq_bool_neq.
  - intros H. destruct (Qeq_bool q 0) eqn:E; [|reflexivity].
    now apply Qeq_bool_iff in E.
Qed.

(** X5: the volume weight is 200 times the volume in cubic metres, whatever
    the three dimensions; both are positive for three positive dimensions
    and 0 as soon as a dimension is zero or missing. *)
Theorem volumeWeight_and_cbm (length width height : option Q) :
  (Tools.calculateVolumeWeight length width height
   == 200 * Tools.calculateCBM length width height)%Q
  /\ (forall l w h,
        length = Some l -> width = Some w -> height = Some h ->
        (0 < l)%Q -> (0 < w)%Q -> (0 < h)%Q ->
        (0 < Tools.calculateCBM length width height)%Q
        /\ (Tools.calculateCBM length width height
            == l * w * h / 1000000)%Q)
  /\ ((length = None \/ width = None \/ height = None
       \/ (exists q, (q == 0)%Q
                     /\ (length = Some q \/ width = Some q \/ height = Some q)))
      -> Tools.calculateCBM length width height = 0%Q
         /\ Tools.calculateVolumeWeight length width height = 0%Q).
Proof.
  split; [|split].
  - unfold Tools.calculateVolumeWeight, Tools.calculateCBM.
    destruct length as [l|], width as [w|], height as [h|];
      try reflexivity.
    destruct (_ || _)%bool; [reflexivity | field].
  - intros l w h -> -> -> Hl Hw Hh.
    unfold Tools.calculateCBM.
    assert (Tl : Js.truthy l = true) by (apply truthy_nonzero; lra).
    assert (Tw : Js.truthy w = true) by (apply truthy_nonzero; lra).
    assert (Th : Js.truthy h = true) by (apply truthy_nonzero; lra).
    rewrite Tl, Tw, Th. simpl. split; [|reflexivity].
    apply Qlt_shift_div_l; [reflexivity|]. rewrite Qmult_0_l.
    apply Qmult_lt_0_compat; [|exact Hh]. now apply Qmult_lt_0_compat.
  - unfold Tools.calculateVolumeWeight, Tools.calculateCBM.
    intros H.
    destruct length as [l|], width as [w|], height as [h|];
      try (now split).
    destruct H as [H|[H|[H|(q & Hq & H)]]]; try discriminate H.
    assert (Tq : Js.truthy q = false).
    { destruct (Js.truthy q) eqn:E; [|reflexivity].
      now apply truthy_nonzero in E. }
    destruct H as [H|[H|H]]; injection H as <-; rewrite Tq; simpl;
      rewrite ?orb_true_r; now split.
Qed.

(** ** More on the tier resolver *)

Lemma calculatePriceByTier_find
    (quantity : value) (tiers : list Tier.t) (tier : Tier.t) :
  find (Utils.matches (Utils.coerceQuantity quantity)) tiers = Some tier ->
  Utils.calculatePriceByTier quantity (VArray tiers) = Tier.price tier.
Proof.
  intros H. unfold Utils.calculatePriceByTier.
  rewrite scanTiers_find, H.
  destruct tiers; [discriminate H | reflexivity].
Qed.

(** X6: on a non-empty tier list the resolver returns the price of one of
    the tiers of the list, and so does the lookup inside [calculatePrice]:
    neither makes up a price. *)
Theorem resolved_price_in_table (quantity : value) (tiers : list Tier.t) :
  tiers <> [] ->
  (exists tier,
     In tier tiers
     /\ Utils.calculatePriceByTier quantity (VArray tiers) = Tier.price tier)
  /\ forall q,
       exists tier,
         In tier tiers /\ App.unitPrice q tiers = Some (Tier.price tier).
Proof.
  intros Hne. split.
  - destruct (find (Utils.matches (Utils.coerceQuantity quantity)) tiers)
      as [tier|] eqn:E.
    + exists tier. split; [now apply find_some in E|].
      now apply calculatePriceByTier_find.
    + unfold Utils.calculatePriceByTier.
      rewrite (length_eqb_nil _ Hne), scanTiers_find, E. simpl.
      destruct (exists_last Hne) as [front [t Et]].
      exists t. split; [rewrite Et; apply in_or_app; right; now left|].
      rewrite (lastPrice_last tiers t Hne), Et. now rewrite last_last.
  - intros q. unfold App.unitPrice.
    destruct tiers as [|t0 rest]; [congruence|].
    destruct (find (Utils.matches q) (t0 :: rest)) as [tier|] eqn:E.
    + destruct (Js.truthy (Tier.price tier)).
      * exists tier. split; [now apply find_some in E | reflexivity].
      * exists t0. split; [now left | reflexivity].
    + exists t0. split; [now left | reflexivity].
Qed.

Lemma resolved_price_in_table_witness :
  exists tier,
    In tier gappedTiers
    /\ Utils.calculatePriceByTier (VNumber 15) (VArray gappedTiers)
       = Tier.price tier.
Proof.
  apply (resolved_price_in_table (VNumber 15) gappedTiers). discriminate.
Defined.

Lemma descending_head (tier : Tier.t) (rest : list Tier.t) :
  descending (tier :: rest) = true ->
  descending rest = true
  /\ forall t, In t rest -> (Tier.price t <= Tier.price tier)%Q.
Proof.
  revert tier. induction rest as [|next rest IH]; intros tier H.
  - split; [reflexivity | contradiction].
  - cbn [descending] in H. apply andb_true_iff in H as [Hle Hd].
    apply Qle_bool_iff in Hle. split; [exact Hd|].
    intros t [<-|Hin]; [exact Hle|].
    destruct (IH next Hd) as [_ Hall].
    apply Qle_trans with (Tier.price next); [now apply Hall | exact Hle].
Qed.

Lemma partitionsFrom_antitone (tiers : list Tier.t) :
  forall lo q q',
    partitionsFrom lo tiers = true -> descending tiers = true ->
    lo <= q -> q <= q' ->
    exists t t',
      find (Utils.matches q) tiers = Some t
      /\ find (Utils.matches q') tiers = Some t'
      /\ (Tier.price t' <= Tier.price t)%Q.
Proof.
  induction tiers as [|t rest IH]; intros lo q q' Hwf Hd Hq Hqq.
  - discriminate Hwf.
  - destruct (descending_head t rest Hd) as [Hdr Hall].
    cbn [partitionsFrom] in Hwf.
    apply andb_true_iff in Hwf as [Hmin Hrest]. apply Z.eqb_eq in Hmin.
    cbn [find]. unfold Utils.matches at 1 3.
    destruct (Tier.max t) as [m|] eqn:Emax, rest as [|t1 rest1];
      try discriminate Hrest.
    + apply andb_true_iff in Hrest as [_ Hrest].
      destruct (Z.leb_spec (Tier.min t) q) as [_|]; [|lia].
      destruct (Z.leb_spec (Tier.min t) q') as [_|]; [|lia].
      destruct (Z.leb_spec q m) as [Hqm|Hqm],
               (Z.leb_spec q' m) as [Hqm'|Hqm']; cbn [andb]; try lia.
      * exists t, t. repeat split. apply Qle_refl.
      * destruct (partitionsFrom_covers q' _ (m + 1) Hrest) as [t' Ht'];
          [lia|].
        exists t, t'. repeat split; [exact Ht'|].
        apply Hall. now apply find_some in Ht'.
      * apply (IH (m + 1)); [assumption | assumption | lia | lia].
    + destruct (Z.leb_spec (Tier.min t) q) as [_|]; [|lia].
      destruct (Z.leb_spec (Tier.min t) q') as [_|]; [|lia].
      cbn [andb]. exists t, t. repeat split. apply Qle_refl.
Qed.

(** X7: in a well-formed table whose prices do not rise from tier to tier,
    of two quantities that are 1 or more the larger one never has the higher
    unit price, and no tier is cheaper than the last one, the one the
    resolver falls back to.  (A quantity below 1 matches no tier and has the
    last price, the lowest of the table, so that a larger quantity can have
    a higher price than it: in the default tables -5 has 9000 and 5 has
    10000.) *)
Theorem calculatePriceByTier_antitone
    (quantity quantity' : value) (tiers : list Tier.t) (d : Tier.t) :
  wellFormed tiers = true -> descending tiers = true ->
  1 <= Utils.coerceQuantity quantity ->
  Utils.coerceQuantity quantity <= Utils.coerceQuantity quantity' ->
  (Utils.calculatePriceByTier quantity' (VArray tiers)
   <= Utils.calculatePriceByTier quantity (VArray tiers))%Q
  /\ forall tier, In tier tiers ->
       (Tier.price (last tiers d) <= Tier.price tier)%Q.
Proof.
  intros Hwf Hd Hq Hqq. split.
  - destruct (partitionsFrom_antitone tiers 1 _ _ Hwf Hd Hq Hqq)
      as (t & t' & Ht & Ht' & Hle).
    now rewrite (calculatePriceByTier_find _ _ _ Ht),
                (calculatePriceByTier_find _ _ _ Ht').
  - clear Hwf Hq Hqq. induction tiers as [|t rest IH]; [contradiction|].
    destruct (descending_head t rest Hd) as [Hdr Hall].
    intros tier Hin. destruct rest as [|t1 rest1].
    + destruct Hin as [<-|[]]. apply Qle_refl.
    + change (last (t :: t1 :: rest1) d) with (last (t1 :: rest1) d).
      destruct Hin as [<-|Hin]; [|now apply IH].
      apply Hall. destruct (@exists_last _ (t1 :: rest1)) as [f [x E]];
        [discriminate|].
      rewrite E, last_last. apply in_or_app. right. now left.
Qed.

Lemma calculatePriceByTier_antitone_witness :
  (Utils.calculatePriceByTier (VNumber 120) (VArray scenarioTiers)
   <= Utils.calculatePriceByTier (VNumber 7) (VArray scenarioTiers))%Q.
Proof.
  destruct (calculatePriceByTier_antitone (VNumber 7) (VNumber 120)
              scenarioTiers (Tier.mk 0 None 0)) as [H _];
    [reflexivity | reflexivity | vm_compute; discriminate
    | vm_compute; discriminate | exact H].
Defined.

(** ** The select boxes and [selectMachine] *)

Lemma existsb_eqb_In (x : string) (seen : list string) :
  existsb (String.eqb x) seen = true <-> In x seen.
Proof.
  rewrite existsb_exists. split.
  - intros (y & Hy & E). apply String.eqb_eq in E. now subst.
  - intros H. exists x. split; [exact H | apply String.eqb_refl].
Qed.

Lemma unique_spec (items : list string) :
  forall seen,
    (forall x, In x (Options.unique seen items) <-> In x items /\ ~ In x seen)
    /\ NoDup (Options.unique seen items).
Proof.
  induction items as [|y rest IH]; intros seen; cbn [Options.unique].
  - split; [|constructor]. intros x. simpl. tauto.
  - destruct (existsb (String.eqb y) seen) eqn:E.
    + apply existsb_eqb_In in E. destruct (IH seen) as [Hin Hnd].
      split; [|exact Hnd]. intros x. rewrite Hin. simpl.
      split; [tauto|]. intros [[<-|H] Hn]; [contradiction | tauto].
    + assert (Hy : ~ In y seen).
      { intros H. apply existsb_eqb_In in H. congruence. }
      destruct (IH (y :: seen)) as [Hin Hnd]. split.
      * intros x. simpl. rewrite Hin. simpl.
        destruct (string_dec y x) as [<-|Hne]; [tauto|]. tauto.
      * constructor; [|exact Hnd]. rewrite Hin. simpl. tauto.
Qed.

(** X8: whatever the catalogue of machines, the series offered are the
    series of its machines, each once, and the models offered for a series
    are the models of the machines of that series, each once; for the empty
    series no model is offered. *)
Theorem option_lists_are_sets (machines : list Machine.t) :
  NoDup (Options.seriesList machines)
  /\ (forall x,
        In x (Options.seriesList machines)
        <-> exists m, In m machines /\ Machine.series m = x)
  /\ forall series,
       NoDup (Options.modelList machines series)
       /\ forall x,
            In x (Options.modelList machines series)
            <-> series <> ""%string
                /\ exists m,
                     In m machines /\ Machine.series m = series
                     /\ Machine.model m = x.
Proof.
  unfold Options.seriesList, Options.modelList.
  split; [apply unique_spec|]. split.
  - intros x. rewrite (proj1 (unique_spec _ [])), in_map_iff. simpl.
    split; [intros [(m & E & H) _]; eauto | intros (m & H & E); eauto].
  - intros series. destruct (String.eqb_spec series "") as [->|Hne].
    + split; [constructor|]. intros x. simpl. tauto.
    + split; [apply unique_spec|]. intros x.
      rewrite (proj1 (unique_spec _ [])), in_map_iff. simpl. split.
      * intros [(m & E & H) _]. apply filter_In in H as [H Hs].
        apply String.eqb_eq in Hs. eauto 6.
      * intros (_ & m & H & Hs & E). split; [|tauto].
        exists m. split; [exact E|]. apply filter_In.
        split; [exact H | now apply String.eqb_eq].
Qed.

Lemma find_exists {A} (f : A -> bool) (l : list A) (x : A) :
  In x l -> f x = true -> exists y, find f l = Some y.
Proof.
  intros Hin Hf. destruct (find f l) as [y|] eqn:E; [eauto|].
  now rewrite (find_none f l E x Hin) in Hf.
Qed.

Lemma findMachine_offered
    (machines : list Machine.t) (series model power : string) :
  In power (Options.powerList machines series model) ->
  exists m,
    Options.findMachine machines series model power = Some m
    /\ In m machines /\ Machine.series m = series
    /\ Machine.model m = model /\ Machine.power m = power
    /\ model <> ""%string.
Proof.
  unfold Options.powerList, Options.findMachine.
  destruct (String.eqb_spec model "") as [->|Hne]; [contradiction|].
  rewrite in_map_iff. intros (m & Ep & H).
  apply filter_In in H as [Hin Hsm].
  destruct (find_exists
              (fun machine =>
                 String.eqb (Machine.series machine) series
                 && String.eqb (Machine.model machine) model
                 && String.eqb (Machine.power machine) power)
              machines m Hin) as [m' E].
  { rewrite Hsm. now apply String.eqb_eq. }
  exists m'. split; [exact E|].
  apply find_some in E as [Hin' Hp].
  apply andb_true_iff in Hp as [Hp Hpow].
  apply andb_true_iff in Hp as [Hser Hmod].
  apply String.eqb_eq in Hser, Hmod, Hpow. now repeat split.
Qed.

Lemma defaultMachines_named (m : Machine.t) :
  In m App.defaultMachines ->
  Machine.series m <> ""%string /\ Machine.model m <> ""%string
  /\ Machine.power m <> ""%string.
Proof.
  intros H. repeat (destruct H as [<-|H]; [repeat split; discriminate|]).
  contradiction.
Qed.

(** X9: every power that the power select box offers, for a model that the
    model select box offers for the series chosen, selects a machine:
    [selectMachine] finds a default machine of exactly that series, model
    and power. *)
Theorem offered_option_selects (series model power : string) (s : State.t) :
  In model (Options.modelList App.defaultMachines series) ->
  In power (Options.powerList App.defaultMachines series model) ->
  exists m,
    State.selectedMachine (App.selectMachine series model power s) = Some m
    /\ In m App.defaultMachines
    /\ Machine.series m = series /\ Machine.model m = model
    /\ Machine.power m = power.
Proof.
  intros Hmodel Hpower.
  destruct (findMachine_offered _ _ _ _ Hpower)
    as (m & E & Hin & Hs & Hm & Hp & Hmne).
  destruct (defaultMachines_named m Hin) as (Ns & _ & Np).
  exists m. split; [|now repeat split].
  unfold App.selectMachine.
  rewrite <- Hs, <- Hm, <- Hp in *.
  apply String.eqb_neq in Ns, Np, Hmne. rewrite Ns, Np, Hmne. exact E.
Qed.

Lemma offered_option_selects_witness :
  exists m,
    State.selectedMachine
      (App.selectMachine "KH-1610" "1610" "80W" (App.initDefaultData []))
    = Some m
    /\ Machine.id m = "kh-1610-80w"%string.
Proof.
  destruct (offered_option_selects "KH-1610" "1610" "80W"
              (App.initDefaultData [])) as (m & E & _).
  - vm_compute. now left.
  - vm_compute. right. now left.
  - exists m. split; [exact E|].
    vm_compute in E. now injection E as <-.
Defined.

(** X10: every default machine can be reached through the select boxes: its
    series, its model and its power are on offer one after the other, and
    choosing them selects that machine and no other. *)
Theorem every_machine_is_offered (m : Machine.t) (s : State.t) :
  In m App.defaultMachines ->
  In (Machine.series m) (Options.seriesList App.defaultMachines)
  /\ In (Machine.model m)
        (Options.modelList App.defaultMachines (Machine.series m))
  /\ In (Machine.power m)
        (Options.powerList App.defaultMachines (Machine.series m)
           (Machine.model m))
  /\ State.selectedMachine
       (App.selectMachine (Machine.series m) (Machine.model m)
          (Machine.power m) s)
     = Some m.
Proof.
  intros H.
  repeat (destruct H as [<-|H];
          [repeat split; try reflexivity; vm_compute; tauto|]).
  contradiction.
Qed.

Lemma every_machine_is_offered_witness :
  State.selectedMachine
    (App.selectMachine "KH-1390" "1390" "100W" (App.initDefaultData []))
  = Some (Machine.mk "kh-1390-100w" "KH-1390" "1390" "100W"
            [ Tier.mk 1 (Some 9) 14000; Tier.mk 10 (Some 99) 13500;
              Tier.mk 100 None 13000 ]).
Proof.
  apply (every_machine_is_offered
           (Machine.mk "kh-1390-100w" "KH-1390" "1390" "100W"
              [ Tier.mk 1 (Some 9) 14000; Tier.mk 10 (Some 99) 13500;
                Tier.mk 100 None 13000 ])
           (App.initDefaultData [])).
  right. right. left. reflexivity.
Defined.

(** ** More on the calculator *)

Lemma unitPrice_in_table (q : Z) (tiers : list Tier.t) (p : Q) :
  App.unitPrice q tiers = Some p ->
  exists tier, In tier tiers /\ p = Tier.price tier.
Proof.
  unfold App.unitPrice, App.firstPrice. intros H.
  destruct (find (Utils.matches q) tiers) as [tier|] eqn:E.
  - destruct (Js.truthy (Tier.price tier)).
    + injection H as <-. exists tier. split; [|reflexivity].
      now apply find_some in E.
    + destruct tiers as [|t0 rest]; [discriminate H|].
      injection H as <-. exists t0. split; [now left | reflexivity].
  - destruct tiers as [|t0 rest]; [discriminate H|].
    injection H as <-. exists t0. split; [now left | reflexivity].
Qed.

Lemma defaultMachines_prices (m : Machine.t) (tier : Tier.t) :
  In m App.defaultMachines -> In tier (Machine.priceTiers m) ->
  (0 < Tier.price tier)%Q.
Proof.
  intros H.
  repeat (destruct H as [<-|H];
          [intros [<-|[<-|[<-|[]]]]; reflexivity|]).
  contradiction.
Qed.

Lemma findById_in (id : string) (catalog : list Item.t) (item : Item.t) :
  App.findById id catalog = Some item ->
  In item catalog /\ Item.id item = id.
Proof.
  unfold App.findById. intros H. apply find_some in H as [Hin E].
  split; [exact Hin | now apply String.eqb_eq].
Qed.

Lemma selectedItems_in (catalog : list Item.t) (ids : list string) (item : Item.t) :
  In item (selectedItems catalog ids) -> In item catalog.
Proof.
  unfold selectedItems. rewrite in_flat_map. intros (id & _ & H).
  destruct (App.findById id catalog) as [found|] eqn:E; [|contradiction].
  destruct H as [<-|[]]. now apply findById_in in E.
Qed.

Lemma sumPrices_nonneg (items : list Item.t) :
  (forall item, In item items -> (0 <= Item.price item)%Q) ->
  (0 <= sumPrices items)%Q.
Proof.
  induction items as [|item rest IH]; intros H; simpl; [apply Qle_refl|].
  assert (H1 : (0 <= Item.price item)%Q) by (apply H; now left).
  assert (H2 : (0 <= sumPrices rest)%Q).
  { apply IH. intros x Hx. apply H. now right. }
  lra.
Qed.

Lemma catalog_prices (item : Item.t) :
  In item App.defaultWaterCoolers \/ In item App.defaultAccessories
  \/ In item App.defaultOtherAccessories ->
  (0 < Item.price item)%Q.
Proof.
  intros [H|[H|H]];
    repeat (destruct H as [<-|H]; [reflexivity|]); contradiction.
Qed.

Lemma sumPrices_perm (l l' : list Item.t) :
  Permutation l l' -> (sumPrices l == sumPrices l')%Q.
Proof.
  induction 1 as [|x l l' _ IH|x y l|l l' l'' _ IH1 _ IH2]; simpl.
  - reflexivity.
  - now rewrite IH.
  - ring.
  - now rewrite IH1.
Qed.

(** X11: in every state the page can be in, the quantity is not zero, the
    exchange rate is not zero and a selected machine is one of the default
    machines, whose price tiers are not empty; [calculatePrice] therefore
    returns: it does not read the price of a missing tier and it does not
    divide by zero. *)
Theorem reachable_never_throws (s : State.t) :
  App.reachable s ->
  State.quantity s <> 0
  /\ ~ (State.exchangeRate s == 0)%Q
  /\ (forall m, State.selectedMachine s = Some m ->
        In m App.defaultMachines /\ Machine.priceTiers m <> [])
  /\ exists out,
       App.calculatePrice s = Some out
       /\ Outcome.usdPrice out
          = Js.divide (Outcome.totalPrice out) (State.exchangeRate s)
       /\ Qeq_bool (State.exchangeRate s) 0 = false.
Proof.
  intros Hr. apply reachable_invariant in Hr.
  pose proof Hr as (Hrate & Hq & Hm).
  destruct (calculatePrice_returns s (invariant_hasTiers s Hr)) as [out E].
  destruct (calculatePrice_some s out E)
    as (mp & _ & _ & _ & _ & _ & _ & _ & _ & _ & _ & Husd).
  split; [exact Hq|]. split; [exact Hrate|]. split.
  - intros m Em. split; [now apply Hm|].
    now apply (invariant_hasTiers s Hr).
  - exists out. split; [exact E|]. split; [exact Husd|].
    destruct (Qeq_bool (State.exchangeRate s) 0) eqn:Ez; [|reflexivity].
    apply Qeq_bool_eq in Ez. contradiction.
Qed.

Lemma reachable_never_throws_witness :
  exists out,
    App.calculatePrice
      (App.step (App.ExchangeRateInput (Some 0%Q))
         (App.step (App.QuantityInput "0") scenarioState))
    = Some out
    /\ Outcome.usdPrice out
       = Js.divide (Outcome.totalPrice out) (65 # 10)
    /\ Qeq_bool (65 # 10) 0 = false.
Proof.
  apply (reachable_never_throws
           (App.step (App.ExchangeRateInput (Some 0%Q))
              (App.step (App.QuantityInput "0") scenarioState))).
  repeat apply App.reachable_step. apply App.reachable_init.
Defined.

(** X12: the order in which the accessories are selected does not change
    the total, and an identifier that names no accessory adds nothing. *)
Theorem accessories_order_irrelevant (s : State.t) (ids : list string) :
  hasTiers s ->
  Permutation (State.selectedAccessories s) ids ->
  (exists out out',
     App.calculatePrice s = Some out
     /\ App.calculatePrice (State.setSelectedAccessories ids s) = Some out'
     /\ (Outcome.totalPrice out == Outcome.totalPrice out')%Q)
  /\ forall id,
       App.findById id App.defaultAccessories = None ->
       App.accessoriesPrice
         (State.setSelectedAccessories (id :: State.selectedAccessories s) s)
       = App.accessoriesPrice s.
Proof.
  intros H Hperm. split.
  - destruct (calculatePrice_returns s H) as [out E].
    destruct (calculatePrice_returns (State.setSelectedAccessories ids s) H)
      as [out' E'].
    exists out, out'. split; [exact E|]. split; [exact E'|].
    destruct (calculatePrice_some _ _ E)
      as (mp & Hmp & _ & _ & _ & _ & _ & _ & _ & _ & Hsum & _).
    destruct (calculatePrice_some _ _ E')
      as (mp' & Hmp' & _ & _ & _ & _ & _ & _ & _ & _ & Hsum' & _).
    change (App.machinePrice (State.setSelectedAccessories ids s))
      with (App.machinePrice s) in Hmp'.
    assert (Em : mp' = mp) by congruence. subst mp'.
    rewrite Hsum, Hsum'.
    change (App.waterCoolerPrice (State.setSelectedAccessories ids s))
      with (App.waterCoolerPrice s).
    change (App.otherAccessoriesPrice (State.setSelectedAccessories ids s))
      with (App.otherAccessoriesPrice s).
    cbn [State.internationalShipping State.domesticShipping State.otherFees
         State.setSelectedAccessories].
    assert (Ha : (App.accessoriesPrice s
                  == App.accessoriesPrice
                       (State.setSelectedAccessories ids s))%Q).
    { unfold App.accessoriesPrice. rewrite !fold_addPrice.
      cbn [State.selectedAccessories State.setSelectedAccessories].
      apply Qplus_comp; [reflexivity|]. apply sumPrices_perm.
      unfold selectedItems. now apply Permutation_flat_map. }
    now rewrite Ha.
  - intros id Hid. unfold App.accessoriesPrice.
    cbn [State.selectedAccessories State.setSelectedAccessories fold_left].
    unfold App.addPrice at 2. now rewrite Hid.
Qed.

Lemma accessories_order_irrelevant_witness :
  exists out out',
    App.calculatePrice
      (State.setSelectedAccessories
         ["accessory-mirror"; "accessory-lens"]%string scenarioState)
    = Some out
    /\ App.calculatePrice
         (State.setSelectedAccessories
            ["accessory-lens"; "accessory-mirror"]%string scenarioState)
       = Some out'
    /\ (Outcome.totalPrice out == Outcome.totalPrice out')%Q.
Proof.
  apply (accessories_order_irrelevant
           (State.setSelectedAccessories
              ["accessory-mirror"; "accessory-lens"]%string scenarioState)
           ["accessory-lens"; "accessory-mirror"]%string).
  - intros m E. vm_compute in E. injection E as <-. discriminate.
  - apply perm_swap.
Defined.

(** X13: in a state the page can be in, with a quantity of 1 or more and no
    negative fee, no amount of the quote is negative: the total is at least
    the machine price, which is at least 0, and under a positive exchange
    rate the dollar price is not negative either. *)
Theorem quote_nonnegative (s : State.t) :
  App.reachable s ->
  1 <= State.quantity s ->
  (0 <= State.internationalShipping s)%Q ->
  (0 <= State.domesticShipping s)%Q ->
  (0 <= State.otherFees s)%Q ->
  exists out,
    App.calculatePrice s = Some out
    /\ (0 <= PriceDetails.machinePrice (Outcome.details out))%Q
    /\ (PriceDetails.machinePrice (Outcome.details out)
        <= Outcome.totalPrice out)%Q
    /\ forall usd,
         Outcome.usdPrice out = Some usd -> (0 < State.exchangeRate s)%Q ->
         (0 <= usd)%Q.
Proof.
  intros Hr Hq Hi Hd Hf. apply reachable_invariant in Hr.
  pose proof Hr as (Hrate & _ & Hm).
  destruct (calculatePrice_returns s (invariant_hasTiers s Hr)) as [out E].
  exists out. split; [exact E|].
  destruct (calculatePrice_some s out E)
    as (mp & Hmp & Hdm & _ & _ & _ & _ & _ & _ & _ & Hsum & Husd).
  rewrite Hdm.
  assert (Hq' : (0 <= inject_Z (State.quantity s))%Q).
  { change 0%Q with (inject_Z 0). rewrite <- Zle_Qle. lia. }
  assert (Hmp0 : (0 <= mp)%Q).
  { unfold App.machinePrice in Hmp.
    destruct (State.selectedMachine s) as [m|] eqn:Em.
    - destruct (App.unitPrice _ _) as [p|] eqn:Ep; [|discriminate Hmp].
      injection Hmp as <-.
      destruct (unitPrice_in_table _ _ _ Ep) as (tier & Hin & ->).
      pose proof (defaultMachines_prices m tier (Hm m eq_refl) Hin).
      apply Qmult_le_0_compat; [lra | exact Hq'].
    - injection Hmp as <-. apply Qle_refl. }
  assert (Hw : (0 <= App.waterCoolerPrice s)%Q).
  { unfold App.waterCoolerPrice.
    destruct (State.selectedWaterCooler s) as [id|]; [|apply Qle_refl].
    destruct (String.eqb id ""); [apply Qle_refl|].
    destruct (App.findById id App.defaultWaterCoolers) as [wc|] eqn:Ew;
      [|apply Qle_refl].
    apply findById_in in Ew as [Hin _].
    pose proof (catalog_prices wc (or_introl Hin)).
    apply Qmult_le_0_compat; [lra | exact Hq']. }
  assert (Ha : (0 <= App.accessoriesPrice s)%Q).
  { unfold App.accessoriesPrice. rewrite fold_addPrice, Qplus_0_l_eq.
    apply sumPrices_nonneg. intros item Hin.
    apply selectedItems_in in Hin.
    apply Qlt_le_weak, catalog_prices. tauto. }
  assert (Ho : (0 <= App.otherAccessoriesPrice s)%Q).
  { unfold App.otherAccessoriesPrice. rewrite fold_addPrice, Qplus_0_l_eq.
    apply sumPrices_nonneg. intros item Hin.
    apply selectedItems_in in Hin.
    apply Qlt_le_weak, catalog_prices. tauto. }
  split; [exact Hmp0|]. split; [rewrite Hsum; lra|].
  intros usd Hu Hpos. rewrite Husd, (divide_some _ _ Hrate) in Hu.
  injection Hu as <-.
  apply Qle_shift_div_l; [exact Hpos|]. rewrite Qmult_0_l, Hsum. lra.
Qed.

Lemma quote_nonnegative_witness :
  exists out,
    App.calculatePrice scenarioState = Some out
    /\ (0 <= PriceDetails.machinePrice (Outcome.details out))%Q
    /\ (PriceDetails.machinePrice (Outcome.details out)
        <= Outcome.totalPrice out)%Q.
Proof.
  destruct (quote_nonnegative scenarioState) as (out & E & H0 & H1 & _).
  - repeat apply App.reachable_step. apply App.reachable_init.
  - vm_compute. discriminate.
  - vm_compute. discriminate.
  - vm_compute. discriminate.
  - vm_compute. discriminate.
  - exists out. now repeat split.
Defined.

(** ** More on the history and the selection *)

(** X14: no listener edits or reorders the entries of the history: after an
    event the history is what it was, or empty (it was cleared), or what it
    was with one new entry in front; and only [clearHistory] and
    [addHistory] change it at all. *)
Theorem history_only_grows_in_front (e : App.event) (s : State.t) :
  (State.history (App.step e s) = State.history s
   \/ State.history (App.step e s) = []
   \/ exists entry,
        State.history (App.step e s) = entry :: State.history s)
  /\ (State.history (App.step e s) <> State.history s ->
      e = App.ClearHistory \/ exists newId now, e = App.AddHistory newId now).
Proof.
  destruct e; cbn [App.step];
    try (split; [now left | intros H; now destruct H]).
  - unfold App.selectMachine. destruct (_ && _);
      (split; [now left | intros H; now destruct H]).
  - split; [right; now left | intros _; now left].
  - split; [|intros _; right; eauto].
    unfold App.addHistory.
    destruct (State.selectedMachine s); [|now left].
    destruct (App.calculatePrice s); [|now left].
    right. right. eexists. reflexivity.
Qed.

(** X15: the listeners of the series box and of the model box deselect the
    machine whatever value is chosen, the placeholder included, so that the
    quote has no machine price and [addHistory] adds nothing; the listener
    of the power box leaves the state, the selected machine included, as it
    was when the power chosen is empty (the placeholder) or the series box
    or the model box it reads holds the empty value. *)
Theorem selection_reset (s : State.t) :
  (forall e, e = App.SeriesChange \/ e = App.ModelChange ->
     State.selectedMachine (App.step e s) = None
     /\ (exists out,
           App.calculatePrice (App.step e s) = Some out
           /\ PriceDetails.machinePrice (Outcome.details out) = 0%Q)
     /\ forall newId now,
          App.addHistory newId now (App.step e s) = Some (App.step e s))
  /\ forall series model power,
       series = ""%string \/ model = ""%string \/ power = ""%string ->
       App.step (App.PowerChange series model power) s = s.
Proof.
  split.
  - intros e [->| ->]; (split; [reflexivity|]); (split; [|reflexivity]);
      unfold App.calculatePrice, App.machinePrice; cbn [App.step];
      cbn [State.selectedMachine State.setSelectedMachine];
      eexists; split; reflexivity.
  - intros series model power H. cbn [App.step]. unfold App.selectMachine.
    destruct H as [->|[->| ->]]; cbn [String.eqb negb andb];
      rewrite ?andb_false_r; reflexivity.
Qed.

(** ** Regular expressions: the test decides the language *)

Lemma append_nil_r (s : string) : (s ++ "")%string = s.
Proof. induction s as [|c r IH]; simpl; [reflexivity | now rewrite IH]. Qed.

Lemma append_assoc (a b c : string) :
  ((a ++ b) ++ c)%string = (a ++ (b ++ c))%string.
Proof. induction a as [|x r IH]; simpl; [reflexivity | now rewrite IH]. Qed.

Lemma append_eq_nil (a b : string) :
  (a ++ b)%string = EmptyString -> a = EmptyString /\ b = EmptyString.
Proof. destruct a; simpl; [now split | discriminate]. Qed.

Lemma lang_cat_inv (r1 r2 : Regex.t) (s : string) :
  Regex.lang (Regex.Cat r1 r2) s ->
  exists s1 s2,
    s = (s1 ++ s2)%string /\ Regex.lang r1 s1 /\ Regex.lang r2 s2.
Proof. intros H. inversion H; subst. eauto. Qed.

Lemma lang_class_inv (p : ascii -> bool) (s : string) :
  Regex.lang (Regex.Class p) s ->
  exists c, s = String c EmptyString /\ p c = true.
Proof. intros H. inversion H; subst. eauto. Qed.

Lemma nullable_lang (r : Regex.t) :
  Regex.nullable r = true <-> Regex.lang r EmptyString.
Proof.
  induction r as [| |p|r1 IH1 r2 IH2|r1 IH1 r2 IH2|r IH]; simpl.
  - split; [discriminate | intros H; inversion H].
  - split; [constructor | reflexivity].
  - split; [discriminate | intros H; inversion H].
  - rewrite andb_true_iff, IH1, IH2. split.
    + intros [H1 H2]. change EmptyString with ("" ++ "")%string.
      now constructor.
    + intros H. apply lang_cat_inv in H as (s1 & s2 & E & H1 & H2).
      symmetry in E. apply append_eq_nil in E as [-> ->]. now split.
  - rewrite orb_true_iff, IH1, IH2. split.
    + intros [H|H]; [now apply Regex.lang_alt_l | now apply Regex.lang_alt_r].
    + intros H. inversion H; subst; tauto.
  - split; [constructor | reflexivity].
Qed.

(** A text of [r*] that starts with [c] starts with a text of [r] that
    starts with [c]. *)
Lemma lang_star_cons_inv (r : Regex.t) (c : ascii) (s : string) :
  Regex.lang (Regex.Star r) (String c s) ->
  exists s1 s2,
    s = (s1 ++ s2)%string /\ Regex.lang r (String c s1)
    /\ Regex.lang (Regex.Star r) s2.
Proof.
  intros H. remember (Regex.Star r) as r' eqn:Er.
  remember (String c s) as cs eqn:Es. revert c s Es.
  induction H
    as [ | p0 c0 Hp | r1 r2 s1 s2 H1 IH1 H2 IH2 | r1 r2 s0 H0 IH0
       | r1 r2 s0 H0 IH0 | r0 | r0 s1 s2 H1 IH1 H2 IH2 ];
    intros c s Es;
    try discriminate Er; try discriminate Es.
  injection Er as ->.
  destruct s1 as [|c1 s1'].
  - simpl in Es. now apply IH2.
  - simpl in Es. injection Es as -> <-. exists s1', s2. now repeat split.
Qed.

Lemma derive_lang (r : Regex.t) :
  forall c s, Regex.lang (Regex.derive c r) s <-> Regex.lang r (String c s).
Proof.
  induction r as [| |p|r1 IH1 r2 IH2|r1 IH1 r2 IH2|r IH]; intros c s; simpl.
  - split; intros H; inversion H.
  - split; intros H; inversion H.
  - destruct (p c) eqn:E; split; intros H.
    + inversion H; subst. now constructor.
    + apply lang_class_inv in H as (c' & E' & _).
      injection E' as -> ->. constructor.
    + inversion H.
    + apply lang_class_inv in H as (c' & E' & Hp).
      injection E' as -> ->. congruence.
  - assert (Hcat : Regex.lang (Regex.Cat (Regex.derive c r1) r2) s
                   -> Regex.lang (Regex.Cat r1 r2) (String c s)).
    { intros H. apply lang_cat_inv in H as (s1 & s2 & -> & H1 & H2).
      apply IH1 in H1.
      change (String c (s1 ++ s2)) with (String c s1 ++ s2)%string.
      now constructor. }
    assert (Hinv : Regex.lang (Regex.Cat r1 r2) (String c s)
                   -> Regex.lang (Regex.Cat (Regex.derive c r1) r2) s
                      \/ (Regex.lang r1 EmptyString
                          /\ Regex.lang (Regex.derive c r2) s)).
    { intros H. apply lang_cat_inv in H as (s1 & s2 & E & H1 & H2).
      destruct s1 as [|c1 s1'].
      - simpl in E. subst s2. right. split; [exact H1 | now apply IH2].
      - simpl in E. injection E as <- ->. left.
        constructor; [now apply IH1 | exact H2]. }
    destruct (Regex.nullable r1) eqn:En.
    + split.
      * intros H. inversion H; subst; [now apply Hcat|].
        change (String c s) with ("" ++ String c s)%string.
        constructor; [now apply nullable_lang | now apply IH2].
      * intros H. destruct (Hinv H) as [H'|[_ H']];
          [now apply Regex.lang_alt_l | now apply Regex.lang_alt_r].
    + split; [exact Hcat|].
      intros H. destruct (Hinv H) as [H'|[H' _]]; [exact H'|].
      apply nullable_lang in H'. congruence.
  - split; intros H; inversion H; subst.
    + apply Regex.lang_alt_l. now apply IH1.
    + apply Regex.lang_alt_r. now apply IH2.
    + apply Regex.lang_alt_l. now apply IH1.
    + apply Regex.lang_alt_r. now apply IH2.
  - split.
    + intros H. apply lang_cat_inv in H as (s1 & s2 & -> & H1 & H2).
      apply IH in H1.
      change (String c (s1 ++ s2)) with (String c s1 ++ s2)%string.
      now constructor.
    + intros H. apply lang_star_cons_inv in H as (s1 & s2 & -> & H1 & H2).
      constructor; [now apply IH | exact H2].
Qed.

Lemma test_lang (r : Regex.t) (s : string) :
  Regex.test r s = true <-> Regex.lang r s.
Proof.
  revert r. induction s as [|c rest IH]; intros r; simpl.
  - apply nullable_lang.
  - rewrite IH. apply derive_lang.
Qed.

(** ** The validators *)

Lemma allChars_app (p : ascii -> bool) (a b : string) :
  allChars p (a ++ b) = (allChars p a && allChars p b)%bool.
Proof.
  induction a as [|c r IH]; simpl; [reflexivity|].
  now rewrite IH, andb_assoc.
Qed.

Lemma lang_star_class (p : ascii -> bool) (s : string) :
  Regex.lang (Regex.Star (Regex.Class p)) s <-> allChars p s = true.
Proof.
  split.
  - intros H. remember (Regex.Star (Regex.Class p)) as r eqn:Er.
    induction H
      as [ | p0 c0 Hp | r1 r2 s1 s2 H1 IH1 H2 IH2 | r1 r2 s0 H0 IH0
         | r1 r2 s0 H0 IH0 | r0 | r0 s1 s2 H1 IH1 H2 IH2 ];
      try discriminate Er; [reflexivity|].
    injection Er as ->.
    apply lang_class_inv in H1 as (c & -> & Hc).
    simpl. now rewrite Hc, IH2.
  - induction s as [|c r IH]; simpl; intros H; [constructor|].
    apply andb_true_iff in H as [Hc Hr].
    change (String c r) with (String c "" ++ r)%string.
    constructor; [now constructor | now apply IH].
Qed.

Lemma lang_plus_class (p : ascii -> bool) (s : string) :
  Regex.lang (Regex.plus (Regex.Class p)) s
  <-> s <> EmptyString /\ allChars p s = true.
Proof.
  unfold Regex.plus. split.
  - intros H. apply lang_cat_inv in H as (s1 & s2 & -> & H1 & H2).
    apply lang_class_inv in H1 as (c & -> & Hc).
    apply lang_star_class in H2. simpl. rewrite Hc, H2.
    split; [discriminate | reflexivity].
  - intros [Hne H]. destruct s as [|c r]; [congruence|].
    simpl in H. apply andb_true_iff in H as [Hc Hr].
    change (String c r) with (String c "" ++ r)%string.
    constructor; [now constructor | now apply lang_star_class].
Qed.

Lemma lang_char (x : ascii) (s : string) :
  Regex.lang (Regex.Class (Ascii.eqb x)) s <-> s = String x EmptyString.
Proof.
  split.
  - intros H. apply lang_class_inv in H as (c & -> & Hc).
    apply Ascii.eqb_eq in Hc. now subst.
  - intros ->. constructor. apply Ascii.eqb_refl.
Qed.

Lemma emailRegex_texts (s : string) :
  Regex.test Validate.emailRegex s = true
  <-> exists a b c,
        s = (a ++ "@" ++ b ++ "." ++ c)%string
        /\ addressPart a /\ addressPart b /\ addressPart c.
Proof.
  rewrite test_lang. unfold Validate.emailRegex, addressPart. split.
  - intros H.
    apply lang_cat_inv in H as (a & s1 & -> & Ha & H).
    apply lang_cat_inv in H as (at1 & s2 & -> & Hat & H).
    apply lang_cat_inv in H as (b & s3 & -> & Hb & H).
    apply lang_cat_inv in H as (dot & c & -> & Hdot & Hc).
    apply lang_char in Hat, Hdot. subst at1 dot.
    apply lang_plus_class in Ha, Hb, Hc.
    exists a, b, c. now repeat split.
  - intros (a & b & c & -> & Ha & Hb & Hc).
    apply lang_plus_class in Ha, Hb, Hc.
    constructor; [exact Ha|].
    change ("@" ++ b ++ "." ++ c)%string
      with (String "@" "" ++ (b ++ String "." "" ++ c))%string.
    constructor; [now apply lang_char|].
    constructor; [exact Hb|].
    constructor; [now apply lang_char | exact Hc].
Qed.

(** X16: [validateEmail] accepts exactly the texts of the form [a@b.c]
    whose three parts are not empty and hold neither white space nor [@];
    [b] and [c] may hold further dots. *)
Theorem validateEmail_texts (email : value) :
  Validate.validateEmail email = true
  <-> exists a b c,
        Utils.toString email = (a ++ "@" ++ b ++ "." ++ c)%string
        /\ addressPart a /\ addressPart b /\ addressPart c.
Proof. apply emailRegex_texts. Qed.

Lemma occurrences_app (x : ascii) (a b : string) :
  occurrences x (a ++ b) = (occurrences x a + occurrences x b)%nat.
Proof.
  induction a as [|c r IH]; simpl; [reflexivity|]. rewrite IH. lia.
Qed.

Lemma addressPart_no_at (s : string) :
  allChars Validate.notSpaceNorAt s = true ->
  occurrences "@" s = 0%nat
  /\ allChars (fun c => negb (Js.isWhiteSpace c)) s = true.
Proof.
  induction s as [|c r IH]; simpl; intros H; [now split|].
  apply andb_true_iff in H as [Hc Hr]. destruct (IH Hr) as [H1 H2].
  unfold Validate.notSpaceNorAt in Hc.
  apply negb_true_iff, orb_false_iff in Hc as [Hw Ha].
  now rewrite Ha, H1, Hw, H2.
Qed.

Lemma length_append (a b : string) :
  String.length (a ++ b) = (String.length a + String.length b)%nat.
Proof. induction a as [|c r IH]; simpl; [reflexivity | now rewrite IH]. Qed.

(** X17: a text that [validateEmail] accepts holds exactly one [@], no
    white space and at least five characters, and does not end with a
    dot-less domain: a text without a dot is rejected. *)
Theorem validateEmail_accepted (email : value) :
  (Validate.validateEmail email = true ->
   occurrences "@" (Utils.toString email) = 1%nat
   /\ allChars (fun c => negb (Js.isWhiteSpace c)) (Utils.toString email)
      = true
   /\ (5 <= String.length (Utils.toString email))%nat)
  /\ (occurrences "." (Utils.toString email) = 0%nat ->
      Validate.validateEmail email = false).
Proof.
  split.
  - intros H.
    apply emailRegex_texts in H as (a & b & c & -> & Ha & Hb & Hc).
    destruct Ha as [Na Ha], Hb as [Nb Hb], Hc as [Nc Hc].
    destruct (addressPart_no_at a Ha) as [Aa Wa].
    destruct (addressPart_no_at b Hb) as [Ab Wb].
    destruct (addressPart_no_at c Hc) as [Ac Wc].
    repeat split.
    + rewrite !occurrences_app, Aa, Ab, Ac. reflexivity.
    + rewrite !allChars_app, Wa, Wb, Wc. reflexivity.
    + rewrite !length_append.
      destruct a, b, c; try congruence. simpl. lia.
  - intros Hdot.
    destruct (Validate.validateEmail email) eqn:E; [|reflexivity].
    apply emailRegex_texts in E as (a & b & c & E & _).
    rewrite E, !occurrences_app in Hdot. simpl in Hdot. lia.
Qed.

Lemma lang_times_class (p : ascii -> bool) (n : nat) :
  forall s,
    Regex.lang (Regex.times n (Regex.Class p)) s
    <-> String.length s = n /\ allChars p s = true.
Proof.
  induction n as [|n IH]; intros s; simpl.
  - split.
    + intros H. inversion H. now split.
    + intros [H _]. destruct s; [constructor | discriminate H].
  - split.
    + intros H. apply lang_cat_inv in H as (s1 & s2 & -> & H1 & H2).
      apply lang_class_inv in H1 as (c & -> & Hc).
      apply IH in H2 as [Hl Hp]. simpl. now rewrite Hl, Hc, Hp.
    + intros [Hl Hp]. destruct s as [|c r]; [discriminate Hl|].
      simpl in Hl, Hp. injection Hl as Hl.
      apply andb_true_iff in Hp as [Hc Hr].
      change (String c r) with (String c "" ++ r)%string.
      constructor; [now constructor | now apply IH].
Qed.

Lemma allChars_isDigit (s : string) : allChars Tools.isDigit s = allDigits s.
Proof. induction s as [|c r IH]; simpl; [reflexivity | now rewrite IH]. Qed.

Lemma phoneRegex_texts (s : string) :
  Regex.test Validate.phoneRegex s = true
  <-> exists c2 rest,
        s = String "1" (String c2 rest)
        /\ Validate.from3to9 c2 = true
        /\ String.length rest = 9%nat /\ allDigits rest = true.
Proof.
  rewrite test_lang. unfold Validate.phoneRegex. split.
  - intros H.
    apply lang_cat_inv in H as (one & s1 & -> & H1 & H).
    apply lang_cat_inv in H as (two & rest & -> & H2 & H3).
    apply lang_char in H1. subst one.
    apply lang_class_inv in H2 as (c2 & -> & Hc2).
    apply lang_times_class in H3 as [Hl Hd].
    rewrite allChars_isDigit in Hd.
    exists c2, rest. now repeat split.
  - intros (c2 & rest & -> & Hc2 & Hl & Hd).
    change (String "1" (String c2 rest))
      with (String "1" "" ++ (String c2 "" ++ rest))%string.
    constructor; [now apply lang_char|].
    constructor; [now constructor|].
    apply lang_times_class. now rewrite allChars_isDigit.
Qed.

(** X18: [validatePhone] accepts exactly the texts of eleven digits that
    start with 1 followed by a digit from 3 to 9; read as a number, such a
    text lies between 13000000000 and 19999999999. *)
Theorem validatePhone_texts (phone : value) :
  (Validate.validatePhone phone = true
   <-> exists c2 rest,
         Utils.toString phone = String "1" (String c2 rest)
         /\ Validate.from3to9 c2 = true
         /\ String.length rest = 9%nat /\ allDigits rest = true)
  /\ (Validate.validatePhone phone = true ->
      exists n,
        Utils.parseInt phone = Some n /\ 13000000000 <= n <= 19999999999).
Proof.
  split; [apply phoneRegex_texts|].
  intros H. apply phoneRegex_texts in H as (c2 & rest & E & Hc2 & Hl & Hd).
  unfold Utils.parseInt. rewrite E.
  assert (Hk : Tools.isDigit c2 = true
               /\ exists k, Js.digitValue c2 = Some k /\ 3 <= k <= 9).
  { clear E. digit_cases c2 Hc2;
      (split; [reflexivity | eexists; split; [vm_compute; reflexivity|lia]]). }
  destruct Hk as (Hdig & k & Hk & Hb).
  rewrite parseIntString_digits; [|reflexivity|simpl; now rewrite Hdig].
  rewrite (readDigits_step "1" 1) by reflexivity.
  rewrite (readDigits_step c2 k) by (assumption || (apply Z.ltb_lt; lia)).
  destruct (readDigits_bounds rest (10 * (10 * 0 + 1) + k) Hd) as (n & En & Hn);
    [lia|].
  exists n. split; [exact En|]. rewrite Hl in Hn.
  change (10 ^ Z.of_nat 9) with 1000000000 in Hn. lia.
Qed.

Lemma validatePhone_texts_witness :
  exists n,
    Utils.parseInt (VString "13812345678") = Some n
    /\ 13000000000 <= n <= 19999999999.
Proof.
  apply (validatePhone_texts (VString "13812345678")). reflexivity.
Defined.

(** ** JSON texts: writing and reading back *)

Lemma unescape_escapeChar (c : ascii) (t : string) :
  Json.unescape (Json.escapeChar c ++ t) = Json.consChar c (Json.unescape t).
Proof.
  destruct c as [[|] [|] [|] [|] [|] [|] [|] [|]]; reflexivity.
Qed.

Lemma unescape_escape (s tail : string) :
  Json.unescape (Json.escape s ++ Json.dq ++ tail) = Some (s, tail).
Proof.
  induction s as [|c r IH]; [reflexivity|].
  cbn [Json.escape]. rewrite append_assoc, unescape_escapeChar, IH.
  reflexivity.
Qed.

Lemma expect_app (p s : string) : Json.expect p (p ++ s) = Some s.
Proof.
  induction p as [|c r IH]; simpl; [now destruct s|].
  now rewrite Ascii.eqb_refl.
Qed.

Lemma property_quote (opening name v tail : string) :
  Json.property opening name
    (opening ++ Json.key name ++ Json.quote v ++ tail)
  = Some (v, tail).
Proof.
  unfold Json.property.
  replace (opening ++ Json.key name ++ Json.quote v ++ tail)%string
    with ((opening ++ Json.key name ++ Json.dq)
          ++ (Json.escape v ++ Json.dq ++ tail))%string.
  - now rewrite expect_app, unescape_escape.
  - unfold Json.quote. now rewrite !append_assoc.
Qed.

Lemma parseItem_stringifyItem (item : HistoryItem.t) (tail : string) :
  Json.parseItem (Json.stringifyItem item ++ tail) = Some (item, tail).
Proof.
  destruct item as [id date total details].
  unfold Json.stringifyItem, Json.parseItem.
  cbn [HistoryItem.id HistoryItem.date HistoryItem.total HistoryItem.details].
  rewrite !append_assoc.
  rewrite property_quote, property_quote, property_quote, property_quote.
  now rewrite expect_app.
Qed.

Lemma stringifyItem_head (item : HistoryItem.t) :
  exists t, Json.stringifyItem item = String "{" t.
Proof. eexists. reflexivity. Qed.

Lemma concat_cons (x y : string) (l : list string) :
  String.concat "," (x :: y :: l)
  = (x ++ "," ++ String.concat "," (y :: l))%string.
Proof. reflexivity. Qed.

Lemma parseItems_concat (items : list HistoryItem.t) :
  forall item fuel,
    (List.length items < fuel)%nat ->
    Json.parseItems fuel
      (String.concat "," (map Json.stringifyItem (item :: items)) ++ "]")
    = Some (item :: items).
Proof.
  induction items as [|next rest IH]; intros item fuel Hf;
    (destruct fuel as [|fuel]; [inversion Hf|]).
  - cbn [map String.concat Json.parseItems].
    now rewrite parseItem_stringifyItem.
  - cbn [map]. rewrite concat_cons, !append_assoc.
    cbn [Json.parseItems]. rewrite parseItem_stringifyItem.
    cbn [append].
    change (Json.stringifyItem next :: map Json.stringifyItem rest)
      with (map Json.stringifyItem (next :: rest)).
    rewrite IH by (simpl in Hf; lia). reflexivity.
Qed.

Lemma concat_length (items : list HistoryItem.t) :
  (List.length items
   <= String.length (String.concat "," (map Json.stringifyItem items)))%nat.
Proof.
  induction items as [|item [|next rest] IH].
  - simpl. lia.
  - cbn [map String.concat List.length].
    destruct (stringifyItem_head item) as [t ->]. simpl. lia.
  - cbn [map]. rewrite concat_cons, !length_append.
    cbn [map] in IH.
    destruct (stringifyItem_head item) as [t ->].
    cbn [List.length String.length] in *. lia.
Qed.

Lemma parseHistory_stringifyHistory (history : list HistoryItem.t) :
  Json.parseHistory (Json.stringifyHistory history) = Some history.
Proof.
  destruct history as [|item rest]; [reflexivity|].
  unfold Json.stringifyHistory.
  set (text := (String.concat "," (map Json.stringifyItem (item :: rest))
                ++ "]")%string).
  assert (Hhead : exists t, text = String "{" t).
  { unfold text. destruct rest as [|next rest'].
    - cbn [map String.concat].
      destruct (stringifyItem_head item) as [t ->]. eexists. reflexivity.
    - cbn [map]. rewrite concat_cons.
      destruct (stringifyItem_head item) as [t ->]. eexists. reflexivity. }
  assert (Hlen : (List.length rest < String.length text)%nat).
  { unfold text. rewrite length_append.
    pose proof (concat_length (item :: rest)). simpl in *. lia. }
  change ("[" ++ text)%string with (String "[" text).
  unfold Json.parseHistory.
  destruct Hhead as [t Et]. rewrite Et. rewrite <- Et.
  now apply parseItems_concat.
Qed.

(** X19: the JSON text that [saveHistory] writes for a history reads back
    as that history, whatever characters its entries hold (quotes,
    backslashes and control characters included), and it is never the empty
    text. *)
Theorem history_json_round_trip (history : list HistoryItem.t) :
  Json.parseHistory (Json.stringifyHistory history) = Some history
  /\ Json.stringifyHistory history <> EmptyString.
Proof.
  split; [apply parseHistory_stringifyHistory | discriminate].
Qed.

(** ** The local storage *)

Lemma find_without (key key' : string) (kvs : list (string * string)) :
  key' <> key ->
  find (fun kv => String.eqb (fst kv) key') (LocalStorage.without key kvs)
  = find (fun kv => String.eqb (fst kv) key') kvs.
Proof.
  intros Hne. unfold LocalStorage.without.
  induction kvs as [|[k v] rest IH]; simpl; [reflexivity|].
  destruct (String.eqb_spec k key) as [->|Hk]; simpl.
  - apply String.eqb_neq in Hne. rewrite String.eqb_sym in Hne.
    now rewrite Hne.
  - now rewrite IH.
Qed.

Lemma find_without_same (key : string) (kvs : list (string * string)) :
  find (fun kv => String.eqb (fst kv) key) (LocalStorage.without key kvs)
  = None.
Proof.
  unfold LocalStorage.without.
  induction kvs as [|[k v] rest IH]; simpl; [reflexivity|].
  destruct (String.eqb k key) eqn:E; simpl; [exact IH|]. now rewrite E.
Qed.

Lemma getItem_setItem (key text : string) (st : LocalStorage.t) :
  LocalStorage.getItem key (LocalStorage.setItem key text st) = Some text.
Proof.
  unfold LocalStorage.getItem, LocalStorage.setItem. simpl.
  now rewrite String.eqb_refl.
Qed.

Lemma getItem_setItem_other (key key' text : string) (st : LocalStorage.t) :
  key' <> key ->
  LocalStorage.getItem key' (LocalStorage.setItem key text st)
  = LocalStorage.getItem key' st.
Proof.
  intros Hne. unfold LocalStorage.getItem, LocalStorage.setItem. simpl.
  assert (E : String.eqb key key' = false).
  { apply String.eqb_neq. congruence. }
  now rewrite E, find_without.
Qed.

(** X20: on a storage that works, a value saved under a key is the value
    read back under that key, provided its JSON text parses back to it and
    is not empty; what is read under any other key is not affected. *)
Theorem save_then_get {V : Type}
    (stringify : V -> string) (parse : string -> option V)
    (key : string) (value defaultValue : V) (st : LocalStorage.t) :
  LocalStorage.blocked st = false -> LocalStorage.full st = false ->
  parse (stringify value) = Some value ->
  stringify value <> EmptyString ->
  fst (Store.saveToLocalStorage stringify key value st) = true
  /\ Store.getFromLocalStorage parse key defaultValue
       (snd (Store.saveToLocalStorage stringify key value st))
     = value
  /\ forall key' d,
       key' <> key ->
       Store.getFromLocalStorage parse key' d
         (snd (Store.saveToLocalStorage stringify key value st))
       = Store.getFromLocalStorage parse key' d st.
Proof.
  intros Hb Hf Hp Hne.
  unfold Store.saveToLocalStorage, Store.getFromLocalStorage.
  rewrite Hb, Hf. cbn [orb fst snd LocalStorage.blocked LocalStorage.setItem].
  rewrite Hb. split; [reflexivity|]. split.
  - change (LocalStorage.mk _ _ _)
      with (LocalStorage.setItem key (stringify value) st).
    rewrite getItem_setItem.
    apply String.eqb_neq in Hne. now rewrite Hne, Hp.
  - intros key' d Hk.
    change (LocalStorage.mk _ _ _)
      with (LocalStorage.setItem key (stringify value) st).
    now rewrite getItem_setItem_other.
Qed.

Lemma save_then_get_witness :
  Store.getFromLocalStorage Json.parseHistory "quoteHistory" []
    (snd (Store.saveToLocalStorage Json.stringifyHistory "quoteHistory"
            [HistoryItem.mk "id1" "now" "12.00" "KH-1390 1390 50W"]
            (LocalStorage.mk [("quoteTemplates"%string, "[]"%string)] false false)))
  = [HistoryItem.mk "id1" "now" "12.00" "KH-1390 1390 50W"].
Proof.
  apply (save_then_get Json.stringifyHistory Json.parseHistory
           "quoteHistory"
           [HistoryItem.mk "id1" "now" "12.00" "KH-1390 1390 50W"] []
           (LocalStorage.mk [("quoteTemplates"%string, "[]"%string)] false false));
    [reflexivity | reflexivity | reflexivity | discriminate].
Defined.

(** X21: what is read is the default value whenever the storage throws,
    the key has no text, its text is empty or does not parse, and, on a
    storage that does not throw, after the key has been removed or the
    storage cleared. *)
Theorem get_default {V : Type}
    (parse : string -> option V) (key : string) (defaultValue : V)
    (st : LocalStorage.t) :
  (LocalStorage.blocked st = true ->
   Store.getFromLocalStorage parse key defaultValue st = defaultValue)
  /\ (LocalStorage.getItem key st = None ->
      Store.getFromLocalStorage parse key defaultValue st = defaultValue)
  /\ (LocalStorage.getItem key st = Some EmptyString ->
      Store.getFromLocalStorage parse key defaultValue st = defaultValue)
  /\ (forall item,
        LocalStorage.getItem key st = Some item -> parse item = None ->
        Store.getFromLocalStorage parse key defaultValue st = defaultValue)
  /\ Store.getFromLocalStorage parse key defaultValue
       (snd (Store.removeFromLocalStorage key st))
     = defaultValue
  /\ (LocalStorage.blocked st = false ->
      fst (Store.removeFromLocalStorage key st) = true
      /\ forall key' d,
           Store.getFromLocalStorage parse key' d
             (snd (Store.clearLocalStorage st)) = d).
Proof.
  unfold Store.getFromLocalStorage, Store.removeFromLocalStorage,
    Store.clearLocalStorage.
  repeat split.
  - now intros ->.
  - intros ->. now destruct (LocalStorage.blocked st).
  - intros ->. now destruct (LocalStorage.blocked st).
  - intros item -> Hp. rewrite Hp.
    destruct (LocalStorage.blocked st); [reflexivity|].
    now destruct (String.eqb item "").
  - destruct (LocalStorage.blocked st) eqn:Hb; cbn [snd]; rewrite ?Hb;
      [reflexivity|].
    unfold LocalStorage.getItem, LocalStorage.removeItem.
    cbn [LocalStorage.blocked LocalStorage.items].
    rewrite Hb, find_without_same. reflexivity.
  - now rewrite H.
  - intros key' d. rewrite H. cbn [snd LocalStorage.clear LocalStorage.blocked].
    now rewrite H.
Qed.

(** ** The history across page loads *)

Lemma init_saveHistory (s : State.t) (st : LocalStorage.t) :
  LocalStorage.blocked st = false -> LocalStorage.full st = false ->
  State.history (fst (Page.init (Page.saveHistory s st))) = State.history s.
Proof.
  intros Hb Hf.
  unfold Page.init, Page.loadHistory, Page.saveHistory.
  cbn [fst State.history State.setHistory].
  unfold Store.saveToLocalStorage, Store.getFromLocalStorage.
  rewrite Hb, Hf. cbn [orb snd].
  rewrite getItem_setItem.
  cbn [LocalStorage.blocked LocalStorage.setItem]. rewrite Hb.
  rewrite parseHistory_stringifyHistory. reflexivity.
Qed.

(** X22: on a storage that works, the history that [addHistory] leaves in
    memory, new entry in front, is the history the next page load starts
    with; and after [clearHistory] the next page load starts with an empty
    history. *)
Theorem history_survives_reload
    (newId now : string) (s : State.t) (st : LocalStorage.t) (m : Machine.t) :
  State.selectedMachine s = Some m ->
  Machine.priceTiers m <> [] ->
  LocalStorage.blocked st = false -> LocalStorage.full st = false ->
  let page := Page.addHistory newId now (s, st) in
  (exists entry, State.history (fst page) = entry :: State.history s)
  /\ State.history (fst (Page.init (snd page))) = State.history (fst page)
  /\ State.history (fst (Page.init (snd (Page.clearHistory page)))) = [].
Proof.
  intros Em Hne Hb Hf.
  assert (H : hasTiers s).
  { intros m' E'. rewrite Em in E'. now injection E' as <-. }
  destruct (calculatePrice_returns s H) as [out E].
  cbv zeta. unfold Page.addHistory, App.addHistory. rewrite Em, E.
  cbn [fst snd]. split; [eexists; reflexivity|]. split.
  - now apply init_saveHistory.
  - unfold Page.clearHistory. cbn [fst snd].
    rewrite init_saveHistory; [reflexivity | |].
    + unfold Page.saveHistory, Store.saveToLocalStorage.
      rewrite Hb, Hf. cbn [orb snd LocalStorage.blocked LocalStorage.setItem].
      exact Hb.
    + unfold Page.saveHistory, Store.saveToLocalStorage.
      rewrite Hb, Hf. cbn [orb snd LocalStorage.full LocalStorage.setItem].
      exact Hf.
Qed.

Lemma history_survives_reload_witness :
  State.history
    (fst (Page.init
            (snd (Page.addHistory "id2" "now"
                    (scenarioState, LocalStorage.mk [] false false)))))
  = [ HistoryItem.mk "id2" "now" (App.yen ++ "12650.00")
        ("KH-1390 1390 50W " ++ App.times ++ " 1") ].
Proof.
  destruct (history_survives_reload "id2" "now" scenarioState
              (LocalStorage.mk [] false false)
              (Machine.mk "kh-1390-50w" "KH-1390" "1390" "50W" scenarioTiers))
    as (_ & H & _);
    [reflexivity | discriminate | reflexivity | reflexivity |].
  rewrite H. reflexivity.
Defined.

(** X23: when the storage throws, on every access or on writing, the
    history in memory changes as it does when the storage works, the
    storage stays as it was, and the next page load starts with the history
    that was stored before. *)
Theorem storage_failure_keeps_memory
    (newId now : string) (s : State.t) (st : LocalStorage.t) :
  LocalStorage.blocked st = true \/ LocalStorage.full st = true ->
  (forall s', App.addHistory newId now s = Some s' ->
     Page.addHistory newId now (s, st) = (s', st))
  /\ Page.clearHistory (s, st) = (App.clearHistory s, st)
  /\ Page.init (snd (Page.addHistory newId now (s, st))) = Page.init st.
Proof.
  intros Hfail.
  assert (Hsave : forall s', Page.saveHistory s' st = st).
  { intros s'. unfold Page.saveHistory, Store.saveToLocalStorage.
    destruct Hfail as [-> | ->]; rewrite ?orb_true_r; reflexivity. }
  split; [|split].
  - intros s' E. unfold Page.addHistory.
    destruct (State.selectedMachine s) as [m|] eqn:Em.
    + now rewrite E, Hsave.
    + unfold App.addHistory in E. rewrite Em in E. now injection E as <-.
  - unfold Page.clearHistory. now rewrite Hsave.
  - unfold Page.addHistory.
    destruct (State.selectedMachine s); [|reflexivity].
    destruct (App.addHistory newId now s); [|reflexivity].
    cbn [snd]. now rewrite Hsave.
Qed.

Lemma storage_failure_keeps_memory_witness :
  Page.clearHistory (scenarioState, LocalStorage.mk [] false true)
  = (App.clearHistory scenarioState, LocalStorage.mk [] false true).
Proof.
  apply (storage_failure_keeps_memory "id" "now" scenarioState
           (LocalStorage.mk [] false true)).
  right. reflexivity.
Defined.

(** ** Amounts as they are printed *)

Lemma substring_full (s : string) : substring 0 (String.length s) s = s.
Proof. induction s as [|c r IH]; simpl; [reflexivity | now rewrite IH]. Qed.

Lemma substring_split (s : string) :
  forall j,
    (j <= String.length s)%nat ->
    (substring 0 j s ++ substring j (String.length s - j) s)%string = s
    /\ String.length (substring 0 j s) = j.
Proof.
  induction s as [|c r IH]; intros j Hj.
  - simpl in Hj. assert (j = 0%nat) by lia. subst. now split.
  - destruct j as [|j].
    + cbn [substring append String.length Nat.sub].
      now rewrite substring_full.
    + cbn [substring append String.length Nat.sub].
      simpl in Hj. destruct (IH j) as [E L]; [lia|].
      now rewrite E, L.
Qed.

Lemma allDigits_app (a b : string) :
  allDigits (a ++ b) = (allDigits a && allDigits b)%bool.
Proof.
  induction a as [|c r IH]; simpl; [reflexivity|].
  now rewrite IH, andb_assoc.
Qed.

Lemma splitAt_digits (a b : string) :
  allDigits a = true -> splitAt "." (a ++ String "." b) = Some (a, b).
Proof.
  induction a as [|c r IH]; intros H; [reflexivity|].
  simpl in H. apply andb_true_iff in H as [Hc Hr].
  cbn [append splitAt]. rewrite (IH Hr).
  digit_cases c Hc; reflexivity.
Qed.

Lemma readDigits_shift (s : string) :
  allDigits s = true ->
  forall a,
    Js.readDigits 10 s (Some a)
    = option_map (Z.add (a * 10 ^ Z.of_nat (String.length s)))
        (Js.readDigits 10 s (Some 0)).
Proof.
  induction s as [|c r IH]; intros Hs a.
  - simpl. f_equal. lia.
  - apply andb_true_iff in Hs as [Hc Hr].
    destruct (isDigit_value c Hc) as (k & Hk & Hb).
    rewrite !(readDigits_step c k) by (assumption || (apply Z.ltb_lt; lia)).
    rewrite (IH Hr (10 * a + k)), (IH Hr (10 * 0 + k)).
    cbn [String.length]. rewrite Nat2Z.inj_succ, Z.pow_succ_r by lia.
    destruct (Js.readDigits 10 r (Some 0)) as [v|]; [|reflexivity].
    cbn [option_map]. f_equal. ring.
Qed.

Lemma readDigits_app (a b : string) :
  allDigits a = true ->
  forall acc,
    Js.readDigits 10 (a ++ b) (Some acc)
    = match Js.readDigits 10 a (Some acc) with
      | Some v => Js.readDigits 10 b (Some v)
      | None => None
      end.
Proof.
  induction a as [|c r IH]; intros Ha acc; [reflexivity|].
  apply andb_true_iff in Ha as [Hc Hr].
  destruct (isDigit_value c Hc) as (k & Hk & Hb).
  cbn [append].
  rewrite !(readDigits_step c k) by (assumption || (apply Z.ltb_lt; lia)).
  now apply IH.
Qed.

(** The digits that [toFixed2] splits around the point. *)
Lemma padded_digits (n : Z) :
  0 <= n ->
  let m := if n <? 10 then ("00" ++ Js.decimal n)%string
           else if n <? 100 then ("0" ++ Js.decimal n)%string
                else Js.decimal n in
  allDigits m = true
  /\ Js.readDigits 10 m (Some 0) = Some n
  /\ (3 <= String.length m)%nat.
Proof.
  intros Hn.
  destruct (decimal_shape n Hn) as (c & r & E & Hc & Hr & Hv).
  assert (Hd : allDigits (Js.decimal n) = true).
  { rewrite E. simpl. now rewrite Hc. }
  destruct (readDigits_bounds (Js.decimal n) 0 Hd) as (v & Ev & Hb); [lia|].
  rewrite E, Hv in Ev. injection Ev as <-. rewrite <- E in *.
  assert (Hl : (1 <= String.length (Js.decimal n))%nat).
  { rewrite E. simpl. lia. }
  assert (Hpow : forall k, (String.length (Js.decimal n) = k)%nat ->
                   n < 10 ^ Z.of_nat k).
  { intros k <-. lia. }
  cbv zeta.
  destruct (Z.ltb_spec n 10); [|destruct (Z.ltb_spec n 100)].
  - repeat split.
    + simpl. exact Hd.
    + cbn [append]. rewrite !(readDigits_step "0" 0) by reflexivity.
      exact Hv.
    + cbn [append String.length]. lia.
  - repeat split.
    + simpl. exact Hd.
    + cbn [append]. rewrite !(readDigits_step "0" 0) by reflexivity.
      exact Hv.
    + cbn [append String.length].
      destruct (String.length (Js.decimal n)) as [|[|k]] eqn:El; try lia;
        specialize (Hpow _ eq_refl); simpl in Hpow; lia.
  - repeat split; [exact Hd | exact Hv |].
    destruct (String.length (Js.decimal n)) as [|[|[|k]]] eqn:El; try lia;
      specialize (Hpow _ eq_refl); simpl in Hpow; lia.
Qed.

Lemma hundredths_nonneg (x : Q) : 0 <= Js.hundredths x.
Proof.
  unfold Js.hundredths.
  change 0 with (Qfloor 0). apply Qfloor_resp_le.
  pose proof (Qabs_nonneg x). lra.
Qed.

Lemma readAmount_toFixed2 (x : Q) :
  readAmount (Js.toFixed2 x) = Some (Js.fixed2Value x).
Proof.
  unfold Js.toFixed2, Js.fixed2Value.
  pose proof (hundredths_nonneg x) as Hn.
  set (n := Js.hundredths x) in *.
  destruct (padded_digits n Hn) as (Hd & Hv & Hl).
  set (m := if n <? 10 then ("00" ++ Js.decimal n)%string
            else if n <? 100 then ("0" ++ Js.decimal n)%string
                 else Js.decimal n) in *.
  cbv zeta.
  destruct (substring_split m (String.length m - 2)) as [E L]; [lia|].
  replace (String.length m - (String.length m - 2))%nat with 2%nat in E by lia.
  set (a := substring 0 (String.length m - 2) m) in *.
  set (b := substring (String.length m - 2) 2 m) in *.
  assert (Hab : allDigits a = true /\ allDigits b = true).
  { rewrite <- E, allDigits_app in Hd. now apply andb_true_iff in Hd. }
  destruct Hab as [Ha Hb].
  assert (Lb : String.length b = 2%nat).
  { pose proof (f_equal String.length E) as EL.
    rewrite length_append, L in EL. lia. }
  assert (Na : a <> EmptyString).
  { intros Ea. rewrite Ea in L. simpl in L. lia. }
  rewrite <- E, readDigits_app in Hv by exact Ha.
  destruct (Js.readDigits 10 a (Some 0)) as [u|] eqn:Eu; [|discriminate Hv].
  rewrite (readDigits_shift b Hb u), Lb in Hv.
  destruct (Js.readDigits 10 b (Some 0)) as [h|] eqn:Eh; [|discriminate Hv].
  simpl in Hv. injection Hv as Hv.
  assert (Hbody : forall negative,
            match splitAt "." (a ++ "." ++ b) with
            | Some (units, hundredths) =>
                if negb (String.eqb units "") && allDigits units
                   && allDigits hundredths
                   && (String.length hundredths =? 2)%nat
                then
                  match Js.readDigits 10 units (Some 0),
                        Js.readDigits 10 hundredths (Some 0) with
                  | Some u, Some h =>
                      Some (if negative : bool
                            then (- ((u * 100 + h) # 100))%Q
                            else (u * 100 + h) # 100)
                  | _, _ => None
                  end
                else None
            | None => None
            end
            = Some (if negative then (- (n # 100))%Q else n # 100)).
  { intros negative.
    change (a ++ "." ++ b)%string with (a ++ String "." b)%string.
    rewrite (splitAt_digits a b Ha), Ha, Hb, Lb, Eu, Eh.
    apply String.eqb_neq in Na. rewrite Na. cbn [negb andb Nat.eqb].
    now replace (u * 100 + h) with n by lia. }
  unfold readAmount.
  destruct (Qle_bool 0 x).
  - cbn [append].
    destruct a as [|c r]; [congruence|].
    simpl in Ha. apply andb_true_iff in Ha as [Hc _].
    cbn [append]. cbn [append] in Hbody.
    assert (Hminus : c <> "-"%char).
    { intros ->. discriminate Hc. }
    specialize (Hbody false).
    destruct c as [[|] [|] [|] [|] [|] [|] [|] [|]];
      try exact Hbody; congruence.
  - cbn [append]. exact (Hbody true).
Qed.

(** X24: for a finite amount below 10^21 in magnitude, the range in which
    [toFixed] prints a plain numeral, [formatPrice] prints the dollar sign
    for the currency USD and the yen sign for any other, followed by a
    numeral that reads back as the amount rounded to hundredths, which is
    within half a hundredth of the amount; the total of a history entry is
    printed the same way.  A price that is not a number and does not parse
    prints as 0.00; the number [NaN] passes the test for a number and
    prints as NaN, and an infinite price prints as Infinity. *)
Theorem formatPrice_amount
    (price : Format.amount) (currency : string) (q : Q) :
  Format.numberOf price = Format.Finite q ->
  (Qabs q < inject_Z (10 ^ 21))%Q ->
  let symbol := if String.eqb currency "USD" then "$"%string else App.yen in
  Format.formatPrice price currency = (symbol ++ Js.toFixed2 q)%string
  /\ readAmount (Js.toFixed2 q) = Some (Js.fixed2Value q)
  /\ (Qabs (Js.fixed2Value q - q) <= 1 # 200)%Q
  /\ (forall newId now m quantity,
        HistoryItem.total (App.historyItem newId now m quantity q)
        = Format.formatPrice (Format.Number (Format.Finite q)) "CNY")
  /\ Format.formatPrice (Format.NotNumber Format.NaN) currency
     = (symbol ++ "0.00")%string
  /\ Format.formatPrice (Format.Number Format.NaN) currency
     = (symbol ++ "NaN")%string
  /\ forall negative,
       Format.formatPrice (Format.Number (Format.Infinity negative)) currency
       = Format.formatPrice (Format.NotNumber (Format.Infinity negative))
           currency
       /\ Format.formatPrice (Format.Number (Format.Infinity negative))
            currency
          = (symbol ++ (if negative then "-" else "") ++ "Infinity")%string.
Proof.
  intros Hq _. cbv zeta. unfold Format.formatPrice. rewrite Hq.
  split; [now destruct (String.eqb currency "USD")|].
  split; [apply readAmount_toFixed2|].
  split; [apply fixed2Value_close|].
  split; [reflexivity|].
  split; [now destruct (String.eqb currency "USD")|].
  split; [now destruct (String.eqb currency "USD")|].
  intros negative. split; [reflexivity|].
  now destruct negative, (String.eqb currency "USD").
Qed.

Lemma formatPrice_amount_witness :
  Format.formatPrice (Format.Number (Format.Finite (126505 # 10))) "USD"
  = "$12650.50"%string
  /\ readAmount "12650.50" = Some (1265050 # 100).
Proof.
  destruct (formatPrice_amount (Format.Number (Format.Finite (126505 # 10)))
              "USD" (126505 # 10)) as (H1 & H2 & _);
    [reflexivity | vm_compute; reflexivity |].
  split; [exact H1 | exact H2].
Defined.

(** ** One more accessory *)

Lemma catalog_ids_unique (item : Item.t) :
  (In item App.defaultAccessories ->
   App.findById (Item.id item) App.defaultAccessories = Some item)
  /\ (In item App.defaultOtherAccessories ->
      App.findById (Item.id item) App.defaultOtherAccessories = Some item)
  /\ (In item App.defaultWaterCoolers ->
      App.findById (Item.id item) App.defaultWaterCoolers = Some item).
Proof.
  repeat split; intros H;
    repeat (destruct H as [<-|H]; [reflexivity|]); contradiction.
Qed.

(** X25: selecting one more accessory of the catalogue, or one more of the
    other accessories, raises the accessories price, and with it the total,
    by exactly the flat price of that item, whatever the quantity. *)
Theorem one_more_accessory (s : State.t) (item : Item.t) :
  hasTiers s ->
  (In item App.defaultAccessories ->
   exists out out',
     App.calculatePrice s = Some out
     /\ App.calculatePrice
          (State.setSelectedAccessories
             (State.selectedAccessories s ++ [Item.id item]) s)
        = Some out'
     /\ PriceDetails.accessoriesPrice (Outcome.details out')
        = (PriceDetails.accessoriesPrice (Outcome.details out)
           + Item.price item)%Q
     /\ (Outcome.totalPrice out'
         == Outcome.totalPrice out + Item.price item)%Q)
  /\ (In item App.defaultOtherAccessories ->
      exists out out',
        App.calculatePrice s = Some out
        /\ App.calculatePrice
             (State.setSelectedOtherAccessories
                (State.selectedOtherAccessories s ++ [Item.id item]) s)
           = Some out'
        /\ PriceDetails.otherAccessoriesPrice (Outcome.details out')
           = (PriceDetails.otherAccessoriesPrice (Outcome.details out)
              + Item.price item)%Q
        /\ (Outcome.totalPrice out'
            == Outcome.totalPrice out + Item.price item)%Q).
Proof.
  intros H. destruct (calculatePrice_returns s H) as [out E].
  destruct (calculatePrice_some _ _ E)
    as (mp & Hmp & _ & _ & Ha & Ho & _ & _ & _ & _ & Hsum & _).
  destruct (catalog_ids_unique item) as (Ua & Uo & _).
  split; intros Hin.
  - set (s' := State.setSelectedAccessories
                 (State.selectedAccessories s ++ [Item.id item]) s).
    destruct (calculatePrice_returns s' H) as [out' E'].
    exists out, out'. split; [exact E|]. split; [exact E'|].
    destruct (calculatePrice_some _ _ E')
      as (mp' & Hmp' & _ & _ & Ha' & _ & _ & _ & _ & _ & Hsum' & _).
    change (App.machinePrice s') with (App.machinePrice s) in Hmp'.
    assert (Em : mp' = mp) by congruence. subst mp'.
    assert (Eacc : App.accessoriesPrice s'
                   = (App.accessoriesPrice s + Item.price item)%Q).
    { unfold App.accessoriesPrice, s'.
      cbn [State.selectedAccessories State.setSelectedAccessories].
      rewrite fold_left_app. cbn [fold_left].
      unfold App.addPrice at 1. now rewrite (Ua Hin). }
    split; [now rewrite Ha', Ha, Eacc|].
    rewrite Hsum, Hsum', Eacc.
    change (App.waterCoolerPrice s') with (App.waterCoolerPrice s).
    change (App.otherAccessoriesPrice s') with (App.otherAccessoriesPrice s).
    unfold s'.
    cbn [State.internationalShipping State.domesticShipping State.otherFees
         State.setSelectedAccessories].
    ring.
  - set (s' := State.setSelectedOtherAccessories
                 (State.selectedOtherAccessories s ++ [Item.id item]) s).
    destruct (calculatePrice_returns s' H) as [out' E'].
    exists out, out'. split; [exact E|]. split; [exact E'|].
    destruct (calculatePrice_some _ _ E')
      as (mp' & Hmp' & _ & _ & _ & Ho' & _ & _ & _ & _ & Hsum' & _).
    change (App.machinePrice s') with (App.machinePrice s) in Hmp'.
    assert (Em : mp' = mp) by congruence. subst mp'.
    assert (Eacc : App.otherAccessoriesPrice s'
                   = (App.otherAccessoriesPrice s + Item.price item)%Q).
    { unfold App.otherAccessoriesPrice, s'.
      cbn [State.selectedOtherAccessories State.setSelectedOtherAccessories].
      rewrite fold_left_app. cbn [fold_left].
      unfold App.addPrice at 1. now rewrite (Uo Hin). }
    split; [now rewrite Ho', Ho, Eacc|].
    rewrite Hsum, Hsum', Eacc.
    change (App.waterCoolerPrice s') with (App.waterCoolerPrice s).
    change (App.accessoriesPrice s') with (App.accessoriesPrice s).
    unfold s'.
    cbn [State.internationalShipping State.domesticShipping State.otherFees
         State.setSelectedOtherAccessories].
    ring.
Qed.

Lemma one_more_accessory_witness :
  exists out out',
    App.calculatePrice scenarioState = Some out
    /\ App.calculatePrice
         (State.setSelectedAccessories
            (State.selectedAccessories scenarioState ++ ["accessory-lens"%string])
            scenarioState)
       = Some out'
    /\ (Outcome.totalPrice out' == Outcome.totalPrice out + 150)%Q.
Proof.
  assert (H : hasTiers scenarioState).
  { intros m E. vm_compute in E. injection E as <-. discriminate. }
  destruct (one_more_accessory scenarioState (Item.mk "accessory-lens" 150) H)
    as [Hacc _].
  destruct Hacc as (out & out' & E & E' & _ & Ht).
  - right. right. left. reflexivity.
  - exists out, out'. now repeat split.
Defined.
